(** * Tic-tac-toe, 1973 vs 2024: the learning engine and the rule engine

    A shallow embedding of [1973/ttt_reconstructed.c] (the learning
    program with its knowledge table) and of [2024/ttt_optimal.c] (the
    rule cascade), with the properties of the specification stated over
    them.

    Conventions.  C [int], [char] and [unsigned short] values are [Z];
    a conversion on assignment to a narrower type is written out
    ([to_ushort], [to_schar], [to_uchar]).  The global arrays are lists
    updated by index; a function that writes a global takes it and
    returns it.  The knowledge table [knowledge[0 .. nknowledge-1]] is
    the list of its live entries, so [nknowledge] is its length. *)

From Stdlib Require Import ZArith List Lia Bool Ascii.
From stdpp Require Import base list.
Import ListNotations.

Local Open Scope Z_scope.

(** ** Machine integers *)

(** Assignment to [unsigned short] (16 bits). *)
Definition to_ushort (z : Z) : Z := z mod 65536.

(** Assignment to [unsigned char]. *)
Definition to_uchar (z : Z) : Z := z mod 256.

(** Assignment to [signed char]: the value is reduced modulo 2^8 into
    [-128, 127], as every two's-complement C implementation does. *)
Definition to_schar (z : Z) : Z := (z + 128) mod 256 - 128.

(** * The 1973 learning program *)

Module Ttt1973.

Definition EMPTY : Z := 0.
Definition HUMAN : Z := 1.
Definition COMPUTER : Z := 2.

Definition MAX_KNOWLEDGE : Z := 200.

(** [struct kentry]: an [unsigned short] board code and a
    [signed char] weight. *)
Record kentry : Type := Kentry { board : Z; weight : Z }.

(** [nknowledge], the number of live entries of the table. *)
Definition nknowledge (knowledge : list kentry) : Z :=
  Z.of_nat (length knowledge).

(** What the types of the two fields allow. *)
Definition kentry_ok (e : kentry) : Prop :=
  0 <= board e <= 65535 /\ -128 <= weight e <= 127.

(** What an [unsigned char] of the file buffer holds. *)
Definition byte_ok (x : Z) : Prop := 0 <= x <= 255.

(** A [char board[9]] whose cells are EMPTY, HUMAN or COMPUTER. *)
Definition board_ok (b : list Z) : Prop :=
  length b = 9%nat /\ Forall (fun c => 0 <= c <= 2) b.

(** [encode_board]: the loop [result = result * 3 + board[i]] for
    [i = 0 .. 8], the result being stored in an [unsigned short] at
    every step. *)
Definition encode_step (b : list Z) (result : Z) (i : nat) : Z :=
  to_ushort (result * 3 + b !!! i).

Definition encode_board (b : list Z) : Z :=
  fold_left (encode_step b) (seq 0 9) 0.

Definition lines : list (nat * nat * nat) :=
  [ (0, 1, 2); (3, 4, 5); (6, 7, 8);
    (0, 3, 6); (1, 4, 7); (2, 5, 8);
    (0, 4, 8); (2, 4, 6) ]%nat.

(** [check_winner]: the mark of the first line held by one mark, else
    0. *)
Definition check_winner (b : list Z) : Z :=
  match
    find (fun '(p0, p1, p2) =>
            negb (b !!! p0 =? EMPTY) &&
            (b !!! p0 =? b !!! p1) && (b !!! p1 =? b !!! p2))
         lines
  with
  | Some (p0, _, _) => b !!! p0
  | None => 0
  end.

(** [board_full]: 0 as soon as a cell is EMPTY, else 1. *)
Definition board_full (b : list Z) : Z :=
  if existsb (fun i : nat => b !!! i =? EMPTY) (seq 0 9) then 0 else 1.

(** The positional value the specification gives for a board,
    [cell[0] * 3^0 + ... + cell[8] * 3^8]: cell 0 is the lowest digit. *)
Definition encode_low_first (b : list Z) : Z :=
  fold_right (fun (i : nat) acc => acc + b !!! i * 3 ^ Z.of_nat i) 0 (seq 0 9).

(** The positional value with cell 0 as the highest digit,
    [cell[0] * 3^8 + ... + cell[8] * 3^0]. *)
Definition encode_high_first (b : list Z) : Z :=
  fold_right (fun (i : nat) acc => acc + b !!! i * 3 ^ (8 - Z.of_nat i)) 0 (seq 0 9).

(** The board of a code, highest digit first. *)
Definition decode_board (c : Z) : list Z :=
  map (fun i : nat => (c / 3 ^ (8 - Z.of_nat i)) mod 3) (seq 0 9).

(** The scan of [lookup_weight] and of [find_or_create]: the weight of
    the first entry whose board is [code], 0 when there is none. *)
Fixpoint weight_of (code : Z) (knowledge : list kentry) : Z :=
  match knowledge with
  | [] => 0
  | e :: rest => if board e =? code then weight e else weight_of code rest
  end.

(** [lookup_weight]: the weight stored for the current board. *)
Definition lookup_weight (b : list Z) (knowledge : list kentry) : Z :=
  let code := encode_board b in
  weight_of code knowledge.

(** The index of the first entry whose board is [code], counting from
    [i]. *)
Fixpoint index_of (code : Z) (knowledge : list kentry) (i : Z) : option Z :=
  match knowledge with
  | [] => None
  | e :: rest => if board e =? code then Some i else index_of code rest (i + 1)
  end.

(** [find_or_create]: the index returned (-1 when the table is full)
    and the table afterwards. *)
Definition find_or_create (code : Z) (knowledge : list kentry)
  : Z * list kentry :=
  match index_of code knowledge 0 with
  | Some i => (i, knowledge)
  | None =>
      if nknowledge knowledge <? MAX_KNOWLEDGE
      then (nknowledge knowledge, knowledge ++ [Kentry code 0])
      else (-1, knowledge)
  end.

(** One turn of the candidate loop of [compute_move]: the state is the
    board with [best_move] and [best_weight]. *)
Definition try_cell (knowledge : list kentry)
    (s : list Z * Z * Z) (i : nat) : list Z * Z * Z :=
  let '(b, best_move, best_weight) := s in
  if b !!! i =? EMPTY then
    let b1 := <[i := COMPUTER]> b in
    let weight := lookup_weight b1 knowledge in
    let b2 := <[i := EMPTY]> b1 in
    if weight >? best_weight then (b2, Z.of_nat i, weight)
    else (b2, best_move, best_weight)
  else s.

Definition priority : list nat := [4; 0; 2; 6; 8; 1; 3; 5; 7]%nat.

(** [compute_move]: the move returned (-1 for none) and the board as
    the call leaves it. *)
Definition compute_move (b : list Z) (knowledge : list kentry)
  : Z * list Z :=
  let '(b', best_move, best_weight) :=
    fold_left (try_cell knowledge) (seq 0 9) (b, -1, -1000) in
  if (best_move <? 0) || (best_weight =? 0) then
    match find (fun p : nat => b' !!! p =? EMPTY) priority with
    | Some p => (Z.of_nat p, b')
    | None => (best_move, b')
    end
  else (best_move, b').

(** The weight [compute_move] reads for the candidate cell [i]: the
    weight of the board with COMPUTER written there. *)
Definition move_weight (b : list Z) (knowledge : list kentry) (i : nat) : Z :=
  lookup_weight (<[i := COMPUTER]> b) knowledge.

(** The candidate loop seen on [best_move] and [best_weight] alone. *)
Definition pick (b : list Z) (knowledge : list kentry)
    (s : Z * Z) (i : nat) : Z * Z :=
  if b !!! i =? EMPTY then
    if move_weight b knowledge i >? s.2 then (Z.of_nat i, move_weight b knowledge i)
    else s
  else s.

(** The weight change of an outcome ([COMPUTER], 0 for a draw, anything
    else for a loss). *)
Definition outcome_delta (outcome : Z) : Z :=
  if outcome =? COMPUTER then 3
  else if outcome =? 0 then 1
  else -2.

(** The three statements on [knowledge[idx].weight] in
    [update_knowledge]: the compound assignment stores its result in the
    [signed char] field, the two comparisons then read that field. *)
Definition bump_weight (w delta : Z) : Z :=
  let w1 := to_schar (w + delta) in
  let w2 := if w1 >? 127 then 127 else w1 in
  if w2 <? -128 then -128 else w2.

Definition adjust_entry (idx : Z) (delta : Z) (knowledge : list kentry)
  : list kentry :=
  match knowledge !! Z.to_nat idx with
  | Some e => <[Z.to_nat idx := Kentry (board e) (bump_weight (weight e) delta)]> knowledge
  | None => knowledge
  end.

(** The replay loop of [update_knowledge] from move number [i] on; the
    moves are cell numbers from 0 to 8. *)
Fixpoint replay (delta : Z) (i : nat) (moves : list Z)
    (b : list Z) (knowledge : list kentry) : list Z * list kentry :=
  match moves with
  | [] => (b, knowledge)
  | m :: rest =>
      let b1 :=
        if (Z.of_nat i mod 2 =? 0) then <[Z.to_nat m := HUMAN]> b
        else <[Z.to_nat m := COMPUTER]> b in
      let knowledge1 :=
        if (Z.of_nat i mod 2 =? 1) then
          let code := encode_board b1 in
          let '(idx, k) := find_or_create code knowledge in
          if idx >=? 0 then adjust_entry idx delta k else k
        else knowledge in
      replay delta (S i) rest b1 knowledge1
  end.

(** [update_knowledge]: [move_history[0 .. nmoves-1]] is the list
    [moves]; the board is cleared first. *)
Definition update_knowledge (outcome : Z) (moves : list Z)
    (knowledge : list kentry) : list Z * list kentry :=
  let delta := outcome_delta outcome in
  replay delta 0 moves (replicate 9 EMPTY) knowledge.

(** The record loop of [load_knowledge] on the bytes of the file:
    [read] fills [buf] with the next three bytes, and fewer than three
    ends the loop. *)
Fixpoint load_loop (bytes : list Z) (knowledge : list kentry)
  : list kentry :=
  match bytes with
  | b0 :: b1 :: b2 :: rest =>
      if nknowledge knowledge <? MAX_KNOWLEDGE then
        load_loop rest
          (knowledge ++
             [Kentry (to_ushort (Z.lor b0 (Z.shiftl b1 8))) (to_schar b2)])
      else knowledge
  | _ => knowledge
  end.

(** [load_knowledge] once the file is open: the table is refilled from
    entry 0. *)
Definition load_knowledge (bytes : list Z) : list kentry :=
  load_loop bytes [].

(** [save_knowledge]: the bytes written, three per entry. *)
Definition save_entry (e : kentry) : list Z :=
  [ to_uchar (Z.land (board e) 255);
    to_uchar (Z.land (Z.shiftr (board e) 8) 255);
    to_uchar (weight e) ].

Definition save_knowledge (knowledge : list kentry) : list Z :=
  flat_map save_entry knowledge.

(** The records of a byte stream, three bytes each, a trailing partial
    record dropped: code low byte, code high byte, weight. *)
Fixpoint records (bytes : list Z) : list kentry :=
  match bytes with
  | b0 :: b1 :: b2 :: rest =>
      Kentry (b0 + 256 * b1) (if b2 <? 128 then b2 else b2 - 256)
        :: records rest
  | _ => []
  end.

(** The board that the replay loop of [update_knowledge] builds: move
    number [i] is the human's when [i] is even, the computer's when it
    is odd. *)
Fixpoint place (i : nat) (moves : list Z) (b : list Z) : list Z :=
  match moves with
  | [] => b
  | m :: rest =>
      place (S i) rest
        (if (Z.of_nat i mod 2 =? 0) then <[Z.to_nat m := HUMAN]> b
         else <[Z.to_nat m := COMPUTER]> b)
  end.

(** The codes that the replay loop looks up: the boards after the
    computer's moves. *)
Fixpoint learned_codes (i : nat) (moves : list Z) (b : list Z) : list Z :=
  match moves with
  | [] => []
  | m :: rest =>
      let b1 :=
        if (Z.of_nat i mod 2 =? 0) then <[Z.to_nat m := HUMAN]> b
        else <[Z.to_nat m := COMPUTER]> b in
      if (Z.of_nat i mod 2 =? 1)
      then encode_board b1 :: learned_codes (S i) rest b1
      else learned_codes (S i) rest b1
  end.

(** How a game of [main] ends: "You win", "Draw", "I concede",
    "I win". *)
Inductive ending : Type :=
  | YouWin
  | DrawGame
  | Concede
  | IWin.

(** The outcome [main] passes to [update_knowledge] at each ending. *)
Definition ending_outcome (e : ending) : Z :=
  match e with
  | YouWin => HUMAN
  | DrawGame => 0
  | Concede => HUMAN
  | IWin => COMPUTER
  end.

(** The inner loop of [main], one game.  [inputs] holds the first
    character of each line the human types ([move = response[0] - '1']);
    [history] is [move_history[0 .. nmoves-1]].  The result is the
    ending with the board, the history and the lines not yet read, or
    [None] when the input ends first. *)
Fixpoint game_loop (inputs : list Z) (b history : list Z)
    (knowledge : list kentry)
  : option (ending * list Z * list Z * list Z) :=
  match inputs with
  | [] => None
  | c :: rest =>
      let move := c - 49 in
      if (move <? 0) || (move >? 8) || negb (b !!! Z.to_nat move =? EMPTY)
      then game_loop rest b history knowledge
      else
        let b1 := <[Z.to_nat move := HUMAN]> b in
        let h1 := history ++ [move] in
        if check_winner b1 =? HUMAN then Some (YouWin, b1, h1, rest)
        else if negb (board_full b1 =? 0) then Some (DrawGame, b1, h1, rest)
        else
          let '(move, b2) := compute_move b1 knowledge in
          if move <? 0 then Some (Concede, b2, h1, rest)
          else
            let b3 := <[Z.to_nat move := COMPUTER]> b2 in
            let h2 := h1 ++ [move] in
            if check_winner b3 =? COMPUTER then Some (IWin, b3, h2, rest)
            else game_loop rest b3 h2 knowledge
  end.

(** One turn of the outer loop of [main]: a game from the cleared
    board, then [update_knowledge] and [save_knowledge].  The result is
    the ending, the table, the bytes written to the file and the lines
    not yet read. *)
Definition game_round (inputs : list Z) (knowledge : list kentry)
  : option (ending * list kentry * list Z * list Z) :=
  match game_loop inputs (replicate 9 EMPTY) [] knowledge with
  | None => None
  | Some (e, b, history, rest) =>
      let '(_, k) := update_knowledge (ending_outcome e) history knowledge in
      Some (e, k, save_knowledge k, rest)
  end.

(** One turn of the replay loop on the table: the entry of [code] is
    found or made, and its weight changed when there is an entry. *)
Definition learn (code delta : Z) (knowledge : list kentry) : list kentry :=
  let '(idx, k) := find_or_create code knowledge in
  if idx >=? 0 then adjust_entry idx delta k else k.

(** What [game_loop] keeps true of the board and the history: nine
    cells, the board is the replay of the history, the history holds
    distinct cells from 0 to 8, and these are the cells that are not
    EMPTY. *)
Definition history_ok (b history : list Z) : Prop :=
  length b = 9%nat /\
  b = place 0 history (replicate 9 EMPTY) /\
  List.NoDup history /\
  Forall (fun m => 0 <= m <= 8) history /\
  (forall i : nat, (i < 9)%nat -> (b !!! i <> EMPTY <-> In (Z.of_nat i) history)).

End Ttt1973.

(** * The 2024 rule program *)

Module Ttt2024.

(** [char board[10]]: the cells are read as [board[pos]]; the lines and
    the moves use the positions 1 to 9. *)
Definition cell (b : list ascii) (pos : nat) : ascii := nth pos b " "%char.

(** [board] as [main] finds it.  The initialiser is a string of nine
    blanks for an array of ten [char]: cells 0 to 8 are blank and cell 9
    holds the NUL that ends the string. *)
Definition initial_board : list ascii :=
  replicate 9 " "%char ++ ["000"%char].

Definition wins : list (nat * nat * nat) :=
  [ (1, 2, 3); (4, 5, 6); (7, 8, 9);
    (1, 4, 7); (2, 5, 8); (3, 6, 9);
    (1, 5, 9); (3, 5, 7) ]%nat.

(** [check_win]: 1 when a line holds [player] three times, else 0. *)
Definition check_win (player : ascii) (b : list ascii) : Z :=
  if existsb
       (fun '(p0, p1, p2) =>
          Ascii.eqb (cell b p0) player &&
          Ascii.eqb (cell b p1) player &&
          Ascii.eqb (cell b p2) player)
       wins
  then 1 else 0.

(** The inner loop of [find_winning_move] over the three cells of a
    line: the state is [count] and [empty]. *)
Definition scan_cell (player : ascii) (b : list ascii)
    (s : Z * Z) (pos : nat) : Z * Z :=
  let '(count, empty) := s in
  if Ascii.eqb (cell b pos) player then (count + 1, empty)
  else if Ascii.eqb (cell b pos) " "%char then (count, Z.of_nat pos)
  else (count, empty).

Fixpoint find_winning_move_in (lines : list (nat * nat * nat))
    (player : ascii) (b : list ascii) : Z :=
  match lines with
  | [] => 0
  | (p0, p1, p2) :: rest =>
      let '(count, empty) :=
        fold_left (scan_cell player b) [p0; p1; p2] (0, 0) in
      if (count =? 2) && (empty >? 0) then empty
      else find_winning_move_in rest player b
  end.

(** [find_winning_move]: the cell that completes a line for [player],
    0 when there is none. *)
Definition find_winning_move (player : ascii) (b : list ascii) : Z :=
  find_winning_move_in wins player b.

Definition corners : list nat := [1; 3; 7; 9]%nat.
Definition opposite : list nat := [9; 7; 3; 1]%nat.
Definition edges : list nat := [2; 4; 6; 8]%nat.

(** The first loop of rule 4, over [corners[i]] and [opposite[i]]. *)
Fixpoint opposite_corner (cs os : list nat)
    (opponent : ascii) (b : list ascii) : option nat :=
  match cs, os with
  | c :: cs', o :: os' =>
      if Ascii.eqb (cell b c) opponent && Ascii.eqb (cell b o) " "%char
      then Some o
      else opposite_corner cs' os' opponent b
  | _, _ => None
  end.

(** [best_move]: the five rules in order; 0 when no cell is free. *)
Definition best_move (me opponent : ascii) (b : list ascii) : Z :=
  let move := find_winning_move me b in
  if move >? 0 then move else
  let move := find_winning_move opponent b in
  if move >? 0 then move else
  if Ascii.eqb (cell b 5) " "%char then 5 else
  match opposite_corner corners opposite opponent b with
  | Some o => Z.of_nat o
  | None =>
      match find (fun c => Ascii.eqb (cell b c) " "%char) corners with
      | Some c => Z.of_nat c
      | None =>
          match find (fun e => Ascii.eqb (cell b e) " "%char) edges with
          | Some e => Z.of_nat e
          | None => 0
          end
      end
  end.

(** How a game of [main] ends. *)
Inductive outcome : Type :=
  | HumanWins
  | ComputerWins
  | Draw
  | InputExhausted.

(** The human's turn: numbers are read until one is a free cell from 1
    to 9 (the [turn--; continue] of [main]). *)
Fixpoint read_move (inputs : list Z) (b : list ascii)
  : option (Z * list Z) :=
  match inputs with
  | [] => None
  | move :: rest =>
      if (move <? 1) || (move >? 9)
         || negb (Ascii.eqb (cell b (Z.to_nat move)) " "%char)
      then read_move rest b
      else Some (move, rest)
  end.

(** The turn loop of [main] from turn number [turn], with [n] turns
    left; [inputs] are the numbers the human types. *)
Fixpoint turns (n : nat) (turn : Z) (human computer : ascii)
    (inputs : list Z) (b : list ascii) : outcome * list ascii :=
  match n with
  | O => (Draw, b)
  | S n' =>
      let current := if turn mod 2 =? 0 then "X"%char else "O"%char in
      if Ascii.eqb current human then
        match read_move inputs b with
        | None => (InputExhausted, b)
        | Some (move, rest) =>
            let b' := <[Z.to_nat move := human]> b in
            if check_win current b' =? 1 then (HumanWins, b')
            else turns n' (turn + 1) human computer rest b'
        end
      else
        let move := best_move computer human b in
        let b' := <[Z.to_nat move := computer]> b in
        if check_win current b' =? 1 then (ComputerWins, b')
        else turns n' (turn + 1) human computer inputs b'
  end.

(** A game of [main] from the board as initialised: nine turns, ["X"]
    first. *)
Definition play (human computer : ascii) (inputs : list Z)
  : outcome * list ascii :=
  turns 9 0 human computer inputs initial_board.

(** Every game of [turns] at once: the human's turn branches over the
    nine cells instead of reading a move, and [P] is asked about every
    way the game can stop. *)
Fixpoint explore (P : outcome -> list ascii -> bool) (n : nat) (turn : Z)
    (human computer : ascii) (b : list ascii) : bool :=
  match n with
  | O => P Draw b
  | S n' =>
      let current := if turn mod 2 =? 0 then "X"%char else "O"%char in
      if Ascii.eqb current human then
        P InputExhausted b &&
        forallb
          (fun move : Z =>
             if (move <? 1) || (move >? 9)
                || negb (Ascii.eqb (cell b (Z.to_nat move)) " "%char)
             then true
             else
               let b' := <[Z.to_nat move := human]> b in
               if check_win current b' =? 1 then P HumanWins b'
               else explore P n' (turn + 1) human computer b')
          [1; 2; 3; 4; 5; 6; 7; 8; 9]
      else
        let move := best_move computer human b in
        let b' := <[Z.to_nat move := computer]> b in
        if check_win current b' =? 1 then P ComputerWins b'
        else explore P n' (turn + 1) human computer b'
  end.

(** The human has not won. *)
Definition not_lost (o : outcome) (b : list ascii) : bool :=
  match o with
  | HumanWins => false
  | _ => true
  end.

(** The human has not won and holds no line on the board. *)
Definition no_line (human : ascii) (o : outcome) (b : list ascii) : bool :=
  not_lost o b && (check_win human b =? 0).

(** Cell 9 still holds the NUL and cell 0 the blank it started with. *)
Definition nine_idle (o : outcome) (b : list ascii) : bool :=
  Ascii.eqb (cell b 9) "000"%char.

Definition zero_blank (o : outcome) (b : list ascii) : bool :=
  Ascii.eqb (cell b 0) " "%char.

(** The game was won by the computer or waits for the human. *)
Definition won_or_waiting (o : outcome) (b : list ascii) : bool :=
  match o with
  | ComputerWins | InputExhausted => true
  | HumanWins | Draw => false
  end.

(** Cell 0 holds the computer's X exactly when the game is a draw. *)
Definition zero_on_draw (o : outcome) (b : list ascii) : bool :=
  match o with
  | Draw => Ascii.eqb (cell b 0) "X"%char
  | _ => Ascii.eqb (cell b 0) " "%char
  end.

(** A line of [wins] holds [player] on two cells and is blank on the
    third, [m]. *)
Definition completes (player : ascii) (b : list ascii) (m : nat) : Prop :=
  exists p0 p1 p2,
    In (p0, p1, p2) wins /\
    ((m = p0 /\ cell b p0 = " "%char /\ cell b p1 = player /\ cell b p2 = player) \/
     (m = p1 /\ cell b p0 = player /\ cell b p1 = " "%char /\ cell b p2 = player) \/
     (m = p2 /\ cell b p0 = player /\ cell b p1 = player /\ cell b p2 = " "%char)).

End Ttt2024.

Import Ttt1973.

(** * Facts about the machine integers *)

Lemma to_schar_range z : -128 <= to_schar z <= 127.
Proof. unfold to_schar. pose proof (Z.mod_pos_bound (z + 128) 256). lia. Qed.

Lemma to_schar_small z : -128 <= z <= 127 -> to_schar z = z.
Proof. intros H. unfold to_schar. rewrite Z.mod_small; lia. Qed.

Lemma to_ushort_small z : 0 <= z < 65536 -> to_ushort z = z.
Proof. intros H. unfold to_ushort. now rewrite Z.mod_small. Qed.

Lemma to_schar_to_uchar z : -128 <= z <= 127 -> to_schar (to_uchar z) = z.
Proof.
  intros H. unfold to_schar, to_uchar.
  destruct (Z_lt_le_dec z 0) as [Hn | Hp].
  - replace (z mod 256) with (z + 256).
    + replace (z + 256 + 128) with (z + 128 + 1 * 256) by lia.
      rewrite Z.mod_add by lia. rewrite Z.mod_small; lia.
    + symmetry. replace z with (z + 256 + (-1) * 256) at 1 by lia.
      rewrite Z.mod_add by lia. rewrite Z.mod_small; lia.
  - rewrite (Z.mod_small z) by lia. rewrite Z.mod_small; lia.
Qed.

(** * The board code *)

Section Encoding.

(** A well-formed board is nine cells, each 0, 1 or 2. *)
Lemma board_ok_cells (b : list Z) :
  board_ok b ->
  exists c0 c1 c2 c3 c4 c5 c6 c7 c8,
    b = [c0; c1; c2; c3; c4; c5; c6; c7; c8] /\
    (0 <= c0 <= 2) /\ (0 <= c1 <= 2) /\ (0 <= c2 <= 2) /\
    (0 <= c3 <= 2) /\ (0 <= c4 <= 2) /\ (0 <= c5 <= 2) /\
    (0 <= c6 <= 2) /\ (0 <= c7 <= 2) /\ (0 <= c8 <= 2).
Proof.
  intros [Hlen Hall].
  do 9 (destruct b as [| ? b]; [discriminate Hlen |]).
  destruct b; [| discriminate Hlen].
  repeat match goal with
         | H : Forall _ (_ :: _) |- _ => apply Forall_cons in H; destruct H
         end.
  do 9 eexists. split; [reflexivity |]. tauto.
Qed.

(** On nine explicit cells the loop never overflows its 16 bits: the
    code is the base-3 number whose highest digit is cell 0. *)
Lemma encode_board_cells (c0 c1 c2 c3 c4 c5 c6 c7 c8 : Z) :
  0 <= c0 <= 2 -> 0 <= c1 <= 2 -> 0 <= c2 <= 2 ->
  0 <= c3 <= 2 -> 0 <= c4 <= 2 -> 0 <= c5 <= 2 ->
  0 <= c6 <= 2 -> 0 <= c7 <= 2 -> 0 <= c8 <= 2 ->
  encode_board [c0; c1; c2; c3; c4; c5; c6; c7; c8] =
  c0 * 6561 + c1 * 2187 + c2 * 729 + c3 * 243 + c4 * 81 +
  c5 * 27 + c6 * 9 + c7 * 3 + c8.
Proof.
  intros. unfold encode_board, encode_step. cbn [seq fold_left].
  change (([c0; c1; c2; c3; c4; c5; c6; c7; c8] : list Z) !!! 0%nat) with c0.
  change (([c0; c1; c2; c3; c4; c5; c6; c7; c8] : list Z) !!! 1%nat) with c1.
  change (([c0; c1; c2; c3; c4; c5; c6; c7; c8] : list Z) !!! 2%nat) with c2.
  change (([c0; c1; c2; c3; c4; c5; c6; c7; c8] : list Z) !!! 3%nat) with c3.
  change (([c0; c1; c2; c3; c4; c5; c6; c7; c8] : list Z) !!! 4%nat) with c4.
  change (([c0; c1; c2; c3; c4; c5; c6; c7; c8] : list Z) !!! 5%nat) with c5.
  change (([c0; c1; c2; c3; c4; c5; c6; c7; c8] : list Z) !!! 6%nat) with c6.
  change (([c0; c1; c2; c3; c4; c5; c6; c7; c8] : list Z) !!! 7%nat) with c7.
  change (([c0; c1; c2; c3; c4; c5; c6; c7; c8] : list Z) !!! 8%nat) with c8.
  repeat match goal with
         | |- context [to_ushort ?x] => rewrite (to_ushort_small x) by lia
         end.
  lia.
Qed.

Lemma encode_high_first_cells (c0 c1 c2 c3 c4 c5 c6 c7 c8 : Z) :
  encode_high_first [c0; c1; c2; c3; c4; c5; c6; c7; c8] =
  c0 * 6561 + c1 * 2187 + c2 * 729 + c3 * 243 + c4 * 81 +
  c5 * 27 + c6 * 9 + c7 * 3 + c8.
Proof. unfold encode_high_first. cbn. lia. Qed.

Lemma decode_board_ok (c : Z) : board_ok (decode_board c).
Proof.
  split; [reflexivity |].
  unfold decode_board. apply Forall_map, Forall_forall. intros i _. simpl.
  pose proof (Z.mod_pos_bound (c / 3 ^ (8 - Z.of_nat i)) 3). lia.
Qed.

Lemma encode_decode_board (c : Z) :
  0 <= c <= 19682 -> encode_board (decode_board c) = c.
Proof.
  intros Hc. pose proof (decode_board_ok c) as Hok.
  apply board_ok_cells in Hok.
  destruct Hok as (c0 & c1 & c2 & c3 & c4 & c5 & c6 & c7 & c8 & Heq & Hb).
  rewrite Heq. rewrite encode_board_cells by tauto.
  unfold decode_board in Heq. cbn [map seq] in Heq.
  change (3 ^ (8 - Z.of_nat 0)) with 6561 in Heq.
  change (3 ^ (8 - Z.of_nat 1)) with 2187 in Heq.
  change (3 ^ (8 - Z.of_nat 2)) with 729 in Heq.
  change (3 ^ (8 - Z.of_nat 3)) with 243 in Heq.
  change (3 ^ (8 - Z.of_nat 4)) with 81 in Heq.
  change (3 ^ (8 - Z.of_nat 5)) with 27 in Heq.
  change (3 ^ (8 - Z.of_nat 6)) with 9 in Heq.
  change (3 ^ (8 - Z.of_nat 7)) with 3 in Heq.
  change (3 ^ (8 - Z.of_nat 8)) with 1 in Heq.
  injection Heq as <- <- <- <- <- <- <- <- <-.
  clear Hb. rewrite Z.div_1_r. Z.div_mod_to_equations. lia.
Qed.

Lemma encode_board_inj (b1 b2 : list Z) :
  board_ok b1 -> board_ok b2 -> encode_board b1 = encode_board b2 -> b1 = b2.
Proof.
  intros H1 H2.
  apply board_ok_cells in H1, H2.
  destruct H1 as (c0 & c1 & c2 & c3 & c4 & c5 & c6 & c7 & c8 & -> & Hc).
  destruct H2 as (d0 & d1 & d2 & d3 & d4 & d5 & d6 & d7 & d8 & -> & Hd).
  rewrite !encode_board_cells by tauto. intros He.
  assert (c0 = d0) as -> by lia.
  assert (c1 = d1) as -> by lia.
  assert (c2 = d2) as -> by lia.
  assert (c3 = d3) as -> by lia.
  assert (c4 = d4) as -> by lia.
  assert (c5 = d5) as -> by lia.
  assert (c6 = d6) as -> by lia.
  assert (c7 = d7) as -> by lia.
  assert (c8 = d8) as -> by lia.
  reflexivity.
Qed.

End Encoding.




(** * The knowledge table *)

Section Table.

Implicit Types (code : Z) (knowledge : list kentry).

Lemma index_of_None code knowledge i :
  index_of code knowledge i = None <-> ~ In code (map board knowledge).
Proof.
  revert i. induction knowledge as [| e rest IH]; intros i; simpl.
  - tauto.
  - destruct (Z.eqb_spec (board e) code) as [He | He].
    + split; [discriminate | tauto].
    + rewrite IH. tauto.
Qed.

(** A hit is the first entry with that board. *)
Lemma index_of_Some code knowledge i j :
  index_of code knowledge i = Some j ->
  i <= j < i + nknowledge knowledge /\
  (exists e, knowledge !! Z.to_nat (j - i) = Some e /\ board e = code) /\
  (forall n e, (n < Z.to_nat (j - i))%nat ->
     knowledge !! n = Some e -> board e <> code).
Proof.
  unfold nknowledge. revert i.
  induction knowledge as [| e rest IH]; intros i; simpl length; simpl index_of.
  - discriminate.
  - destruct (Z.eqb_spec (board e) code) as [He | He].
    + intros [= <-]. replace (i - i) with 0 by lia. split; [lia |]. split.
      * exists e. auto.
      * intros n e' Hn. simpl in Hn. lia.
    + intros Hj. destruct (IH _ Hj) as (Hr & (e' & He' & Hc) & Hfirst).
      replace (Z.to_nat (j - i)) with (S (Z.to_nat (j - (i + 1)))) by lia.
      split; [lia |]. split.
      * exists e'. auto.
      * intros [| n] e'' Hn; simpl.
        -- intros [= <-]. exact He.
        -- apply Hfirst. lia.
Qed.

Lemma find_or_create_prefix code knowledge idx k' :
  find_or_create code knowledge = (idx, k') ->
  exists tail, k' = knowledge ++ tail.
Proof.
  unfold find_or_create.
  destruct (index_of code knowledge 0); [| destruct (_ <? _)];
    intros [= <- <-]; eauto using app_nil_r.
Qed.

Lemma find_or_create_NoDup code knowledge idx k' :
  find_or_create code knowledge = (idx, k') ->
  List.NoDup (map board knowledge) -> List.NoDup (map board k').
Proof.
  unfold find_or_create.
  destruct (index_of code knowledge 0) eqn:Hi; [| destruct (_ <? _)];
    intros [= <- <-] Hnd; try assumption.
  rewrite map_app. apply List.NoDup_app; [assumption | |].
  - simpl. constructor; [simpl; tauto | constructor].
  - intros a Ha [<- | []]. now apply index_of_None in Hi.
Qed.

End Table.

(** C8: [find_or_create] returns the index of the first entry holding
    the code and leaves the table alone when the code is present;
    appends an entry of weight 0 and returns its index when the code is
    absent and fewer than 200 entries are live; returns -1 and leaves the
    table alone when the code is absent and the table is full.  In every
    case the old entries stay in place (the old table is a prefix of the
    new one) and distinct boards stay distinct. *)
Theorem find_or_create_spec (code : Z) (knowledge : list kentry)
    (idx : Z) (k' : list kentry) :
  find_or_create code knowledge = (idx, k') ->
  (In code (map board knowledge) ->
     k' = knowledge /\ 0 <= idx < nknowledge knowledge /\
     (exists e, knowledge !! Z.to_nat idx = Some e /\ board e = code) /\
     (forall n e, (n < Z.to_nat idx)%nat ->
        knowledge !! n = Some e -> board e <> code)) /\
  (~ In code (map board knowledge) ->
     nknowledge knowledge < MAX_KNOWLEDGE ->
     idx = nknowledge knowledge /\ k' = knowledge ++ [Kentry code 0]) /\
  (~ In code (map board knowledge) ->
     MAX_KNOWLEDGE <= nknowledge knowledge ->
     idx = -1 /\ k' = knowledge) /\
  (exists tail, k' = knowledge ++ tail) /\
  (List.NoDup (map board knowledge) -> List.NoDup (map board k')).
Proof.
  intros Hf.
  split; [| split; [| split; [| split]]];
    eauto using find_or_create_prefix, find_or_create_NoDup.
  - intros Hin. unfold find_or_create in Hf.
    destruct (index_of code knowledge 0) as [j |] eqn:Hi.
    + injection Hf as <- <-.
      apply index_of_Some in Hi. rewrite Z.sub_0_r in Hi.
      destruct Hi as (Hr & He & Hfirst). repeat split; auto; lia.
    + apply index_of_None in Hi. contradiction.
  - intros Hout Hroom. unfold find_or_create in Hf.
    rewrite (proj2 (index_of_None code knowledge 0) Hout) in Hf.
    apply Z.ltb_lt in Hroom. rewrite Hroom in Hf. now injection Hf as <- <-.
  - intros Hout Hfull. unfold find_or_create in Hf.
    rewrite (proj2 (index_of_None code knowledge 0) Hout) in Hf.
    apply Z.ltb_ge in Hfull. rewrite Hfull in Hf. now injection Hf as <- <-.
Qed.

Lemma find_or_create_spec_witness :
  find_or_create 7 [Kentry 5 1] = (1, [Kentry 5 1; Kentry 7 0]) /\
  (exists tail, [Kentry 5 1; Kentry 7 0] = [Kentry 5 1] ++ tail) /\
  List.NoDup (map board [Kentry 5 1; Kentry 7 0]).
Proof.
  split; [reflexivity |].
  destruct (find_or_create_spec 7 [Kentry 5 1] 1 _ eq_refl)
    as (_ & _ & _ & Hprefix & Hnodup).
  split; [exact Hprefix |].
  apply Hnodup. repeat constructor; simpl; tauto.
Defined.

(** * The knowledge file *)

Section File.

Lemma land_byte_shiftl (b0 b1 : Z) :
  0 <= b0 < 256 -> Z.land b0 (Z.shiftl b1 8) = 0.
Proof.
  intros H0. apply Z.bits_inj'. intros n Hn.
  rewrite Z.land_spec, Z.bits_0.
  destruct (Z_lt_le_dec n 8) as [Hlow | Hhigh].
  - rewrite (Z.shiftl_spec_low b1 8 n) by lia. apply andb_false_r.
  - replace b0 with (b0 mod 2 ^ 8) by (apply Z.mod_small; lia).
    rewrite Z.mod_pow2_bits_high by lia. reflexivity.
Qed.

(** The code field of a record: low byte first. *)
Lemma code_of_bytes (b0 b1 : Z) :
  byte_ok b0 -> byte_ok b1 ->
  to_ushort (Z.lor b0 (Z.shiftl b1 8)) = b0 + 256 * b1.
Proof.
  unfold byte_ok. intros H0 H1.
  pose proof (Z.add_lor_land b0 (Z.shiftl b1 8)) as Hadd.
  rewrite land_byte_shiftl in Hadd by lia.
  rewrite Z.add_0_r in Hadd. rewrite Hadd.
  rewrite Z.shiftl_mul_pow2 by lia. change (2 ^ 8) with 256.
  replace (b0 + b1 * 256) with (b0 + 256 * b1) by lia.
  apply to_ushort_small. lia.
Qed.

(** The weight field of a record: one byte in two's complement. *)
Lemma weight_of_byte (b2 : Z) :
  byte_ok b2 -> to_schar b2 = if b2 <? 128 then b2 else b2 - 256.
Proof.
  unfold byte_ok, to_schar. intros H2.
  destruct (Z.ltb_spec b2 128).
  - rewrite Z.mod_small; lia.
  - replace (b2 + 128) with (b2 - 128 + 1 * 256) by lia.
    rewrite Z.mod_add by lia. rewrite Z.mod_small; lia.
Qed.

(** The load loop appends the records of the stream, in order, while
    the table has room. *)
Lemma load_loop_records (n : nat) :
  forall (bytes : list Z) (knowledge : list kentry),
  (length bytes <= n)%nat ->
  Forall byte_ok bytes ->
  load_loop bytes knowledge =
  knowledge ++
    take (Z.to_nat (MAX_KNOWLEDGE - nknowledge knowledge)) (records bytes).
Proof.
  induction n as [| n IH]; intros bytes knowledge Hlen Hok.
  - destruct bytes; [| simpl in Hlen; lia]. simpl.
    now rewrite take_nil, app_nil_r.
  - destruct bytes as [| b0 [| b1 [| b2 rest]]];
      try (simpl; now rewrite take_nil, app_nil_r).
    apply Forall_cons in Hok as [H0 Hok].
    apply Forall_cons in Hok as [H1 Hok].
    apply Forall_cons in Hok as [H2 Hok].
    cbn [load_loop records].
    rewrite code_of_bytes, weight_of_byte by assumption.
    unfold nknowledge, MAX_KNOWLEDGE in *.
    destruct (Z.ltb_spec (Z.of_nat (length knowledge)) 200) as [Hroom | Hfull].
    + rewrite IH by (simpl in Hlen; auto with lia).
      rewrite length_app. simpl length.
      replace (Z.to_nat (200 - Z.of_nat (length knowledge)))
        with (S (Z.to_nat (200 - Z.of_nat (length knowledge + 1)))) by lia.
      simpl. now rewrite <- app_assoc.
    + replace (Z.to_nat (200 - Z.of_nat (length knowledge))) with 0%nat by lia.
      simpl. now rewrite app_nil_r.
Qed.

Lemma load_knowledge_records (bytes : list Z) :
  Forall byte_ok bytes ->
  load_knowledge bytes = take 200 (records bytes).
Proof.
  intros Hok. unfold load_knowledge.
  now rewrite (load_loop_records (length bytes)) by auto.
Qed.

Lemma records_ok (n : nat) :
  forall bytes : list Z,
  (length bytes <= n)%nat ->
  Forall byte_ok bytes -> Forall kentry_ok (records bytes).
Proof.
  induction n as [| n IH]; intros bytes Hlen Hok.
  - destruct bytes; [constructor | simpl in Hlen; lia].
  - destruct bytes as [| b0 [| b1 [| b2 rest]]]; try constructor.
    + apply Forall_cons in Hok as [H0 Hok].
      apply Forall_cons in Hok as [H1 Hok].
      apply Forall_cons in Hok as [H2 Hok].
      unfold kentry_ok, byte_ok in *. simpl.
      destruct (Z.ltb_spec b2 128); lia.
    + apply IH.
      * simpl in Hlen. lia.
      * now do 3 apply Forall_cons in Hok as [_ Hok].
Qed.

(** What [save_knowledge] writes for an entry: the code as two bytes,
    low byte first, then the weight as one byte in two's complement. *)
Lemma save_entry_bytes (e : kentry) :
  kentry_ok e ->
  save_entry e = [board e mod 256; board e / 256; weight e mod 256].
Proof.
  intros [Hb Hw]. unfold save_entry, to_uchar.
  change 255 with (Z.ones 8). rewrite !Z.land_ones by lia.
  rewrite Z.shiftr_div_pow2 by lia. change (2 ^ 8) with 256.
  rewrite !Z.mod_mod by lia.
  rewrite (Z.mod_small (board e / 256)); [reflexivity |].
  Z.div_mod_to_equations. lia.
Qed.

Lemma save_entry_byte_ok (e : kentry) : Forall byte_ok (save_entry e).
Proof.
  unfold save_entry, to_uchar, byte_ok.
  constructor; [| constructor; [| constructor; [| constructor]]];
    match goal with
    | |- _ <= ?x mod 256 <= _ => pose proof (Z.mod_pos_bound x 256); lia
    end.
Qed.

Lemma records_save_entry (e : kentry) (bytes : list Z) :
  kentry_ok e -> records (save_entry e ++ bytes) = e :: records bytes.
Proof.
  intros He. rewrite save_entry_bytes by assumption.
  destruct He as [Hb Hw]. destruct e as [c w]. simpl in *.
  f_equal. f_equal.
  - Z.div_mod_to_equations. lia.
  - destruct (Z.ltb_spec (w mod 256) 128); Z.div_mod_to_equations; lia.
Qed.

Lemma records_save_knowledge (knowledge : list kentry) :
  Forall kentry_ok knowledge -> records (save_knowledge knowledge) = knowledge.
Proof.
  unfold save_knowledge.
  induction 1 as [| e rest He _ IH]; [reflexivity |].
  cbn [flat_map]. rewrite records_save_entry by assumption. now rewrite IH.
Qed.

Lemma save_knowledge_byte_ok (knowledge : list kentry) :
  Forall byte_ok (save_knowledge knowledge).
Proof.
  unfold save_knowledge. induction knowledge as [| e rest IH]; [constructor |].
  cbn [flat_map]. apply Forall_app. split; [apply save_entry_byte_ok | exact IH].
Qed.

End File.

(** C5, as the specification words it, fails: the record FF FF 00 has
    the code 65535, above 19682, and [load_knowledge] stores it; the
    record is not skipped and the load does not fail. *)
Lemma load_knowledge_keeps_bad_code :
  Forall byte_ok [255; 255; 0] /\
  load_knowledge [255; 255; 0] = [Kentry 65535 0] /\
  ~ Forall (fun e => 0 <= board e <= 19682) (load_knowledge [255; 255; 0]).
Proof.
  split; [| split].
  - unfold byte_ok. repeat constructor; lia.
  - reflexivity.
  - intros H. change (load_knowledge [255; 255; 0]) with [Kentry 65535 0] in H.
    apply Forall_cons in H as [H _]. simpl in H. lia.
Qed.

(** C5, amended: on every byte stream [load_knowledge] returns (it is a
    total function) and stores the complete 3-byte records of the stream
    in order, the first 200 of them at most, each as it was read and
    with no check of the code: the stored code is byte 0 + 256 * byte 1,
    anywhere in [0, 65535], and the stored weight is in [-128, 127]. *)
Theorem load_knowledge_stores_records (bytes : list Z) :
  Forall byte_ok bytes ->
  load_knowledge bytes = take 200 (records bytes) /\
  Forall kentry_ok (load_knowledge bytes) /\
  nknowledge (load_knowledge bytes) <= MAX_KNOWLEDGE.
Proof.
  intros Hok. rewrite load_knowledge_records by assumption.
  split; [reflexivity |]. split.
  - apply Forall_take. now apply (records_ok (length bytes)).
  - unfold nknowledge, MAX_KNOWLEDGE. rewrite length_take. lia.
Qed.

Lemma load_knowledge_stores_records_witness :
  load_knowledge [255; 255; 0; 1; 0; 255; 3] =
    take 200 (records [255; 255; 0; 1; 0; 255; 3]) /\
  Forall kentry_ok (load_knowledge [255; 255; 0; 1; 0; 255; 3]) /\
  nknowledge (load_knowledge [255; 255; 0; 1; 0; 255; 3]) <= MAX_KNOWLEDGE.
Proof.
  apply (load_knowledge_stores_records [255; 255; 0; 1; 0; 255; 3]).
  unfold byte_ok. repeat constructor; lia.
Defined.

(** C6: for every table of at most 200 entries, loading the bytes that
    [save_knowledge] writes gives the table back, entry for entry (so
    the two hold the same set of entries); the bytes are, for each entry
    in order, the code as two bytes with the low byte first and the
    weight as one byte in two's complement, three bytes an entry and
    nothing else. *)
Theorem load_save_roundtrip (knowledge : list kentry) :
  Forall kentry_ok knowledge ->
  nknowledge knowledge <= MAX_KNOWLEDGE ->
  load_knowledge (save_knowledge knowledge) = knowledge /\
  (forall e, In e (load_knowledge (save_knowledge knowledge)) <-> In e knowledge) /\
  save_knowledge knowledge =
    flat_map (fun e => [board e mod 256; board e / 256; weight e mod 256])
      knowledge /\
  length (save_knowledge knowledge) = (3 * length knowledge)%nat.
Proof.
  intros Hok Hcap.
  assert (load_knowledge (save_knowledge knowledge) = knowledge) as Hround.
  { rewrite load_knowledge_records by apply save_knowledge_byte_ok.
    rewrite records_save_knowledge by assumption.
    apply take_ge. unfold nknowledge, MAX_KNOWLEDGE in Hcap. lia. }
  split; [exact Hround |]. split; [now rewrite Hround |].
  clear Hround Hcap. unfold save_knowledge.
  induction Hok as [| e rest He _ [IHbytes IHlen]]; [split; reflexivity |].
  cbn [flat_map]. rewrite length_app, IHlen, IHbytes.
  rewrite save_entry_bytes by assumption. split; [reflexivity |].
  simpl length. lia.
Qed.

Lemma load_save_roundtrip_witness :
  load_knowledge (save_knowledge [Kentry 6561 (-2); Kentry 300 5]) =
    [Kentry 6561 (-2); Kentry 300 5] /\
  save_knowledge [Kentry 6561 (-2); Kentry 300 5] = [161; 25; 254; 44; 1; 5].
Proof.
  assert (Forall kentry_ok [Kentry 6561 (-2); Kentry 300 5]) as Hok.
  { unfold kentry_ok. repeat constructor; simpl; lia. }
  assert (nknowledge [Kentry 6561 (-2); Kentry 300 5] <= MAX_KNOWLEDGE) as Hcap.
  { unfold nknowledge, MAX_KNOWLEDGE. simpl. lia. }
  destruct (load_save_roundtrip _ Hok Hcap) as (Hround & _ & Hbytes & _).
  split; [exact Hround | exact Hbytes].
Defined.

(** * Move selection *)

Section Moves.

Variable b : list Z.
Variable knowledge : list kentry.

(** Writing COMPUTER into an EMPTY cell and EMPTY back restores the
    board. *)
Lemma try_then_undo (i : nat) :
  b !!! i = EMPTY -> <[i := EMPTY]> (<[i := COMPUTER]> b) = b.
Proof.
  intros Hi. rewrite list_insert_insert_eq. apply list_insert_id'.
  intros Hlt. rewrite <- Hi. now apply list_lookup_lookup_total_lt.
Qed.

Lemma try_cell_pick (m w : Z) (i : nat) :
  try_cell knowledge (b, m, w) i =
  (b, (pick b knowledge (m, w) i).1, (pick b knowledge (m, w) i).2).
Proof.
  unfold try_cell, pick, move_weight. simpl.
  destruct (Z.eqb_spec (b !!! i) EMPTY) as [Hi | Hi]; [| reflexivity].
  rewrite try_then_undo by assumption.
  now destruct (_ >? w).
Qed.

Lemma scan_pick (cells : list nat) :
  forall m w,
  fold_left (try_cell knowledge) cells (b, m, w) =
  (b, (fold_left (pick b knowledge) cells (m, w)).1,
      (fold_left (pick b knowledge) cells (m, w)).2).
Proof.
  induction cells as [| i rest IH]; intros m w; [reflexivity |].
  cbn [fold_left]. rewrite try_cell_pick, IH.
  now destruct (pick b knowledge (m, w) i).
Qed.

(** [compute_move] in terms of the pair the loop ends with. *)
Lemma compute_move_unfold :
  compute_move b knowledge =
  (let s := fold_left (pick b knowledge) (seq 0 9) (-1, -1000) in
   if (s.1 <? 0) || (s.2 =? 0) then
     match find (fun p : nat => b !!! p =? EMPTY) priority with
     | Some p => Z.of_nat p
     | None => s.1
     end
   else s.1,
   b).
Proof.
  unfold compute_move. rewrite scan_pick.
  destruct (fold_left (pick b knowledge) (seq 0 9) (-1, -1000)) as [m w].
  cbn [fst snd]. destruct ((m <? 0) || (w =? 0)); [| reflexivity].
  now destruct (find _ priority).
Qed.

Lemma weight_of_range (code : Z) :
  Forall kentry_ok knowledge -> -128 <= weight_of code knowledge <= 127.
Proof.
  induction 1 as [| e rest [_ He] _ IH]; simpl; [lia |].
  now destruct (board e =? code).
Qed.

(** After the cells below [n]: either none was EMPTY and nothing was
    chosen, or [best_move] is the first EMPTY cell of greatest weight
    and [best_weight] is that weight. *)
Lemma scan_invariant (n : nat) :
  Forall kentry_ok knowledge ->
  let s := fold_left (pick b knowledge) (seq 0 n) (-1, -1000) in
  (s = (-1, -1000) /\ forall i, (i < n)%nat -> b !!! i <> EMPTY) \/
  (0 <= s.1 < Z.of_nat n /\ b !!! Z.to_nat s.1 = EMPTY /\
   s.2 = move_weight b knowledge (Z.to_nat s.1) /\
   (forall i, (i < n)%nat -> b !!! i = EMPTY ->
      move_weight b knowledge i <= s.2) /\
   (forall i, (i < Z.to_nat s.1)%nat -> b !!! i = EMPTY ->
      move_weight b knowledge i < s.2)).
Proof.
  intros Hok. induction n as [| n IH].
  - left. split; [reflexivity | intros i Hi; lia].
  - rewrite seq_S, fold_left_app. cbn [fold_left Nat.add].
    cbv zeta in IH.
    destruct (fold_left (pick b knowledge) (seq 0 n) (-1, -1000)) as [m w].
    unfold pick. cbn [fst snd] in *.
    assert (-128 <= move_weight b knowledge n <= 127) as Hw
      by (apply weight_of_range; assumption).
    destruct (Z.eqb_spec (b !!! n) EMPTY) as [Hn | Hn].
    + destruct IH as [[[= -> ->] Hnone] | (Hm & Hcell & Hmw & Hmax & Hfirst)].
      * destruct (Z.gtb_spec (move_weight b knowledge n) (-1000)); [| lia].
        right. cbn [fst snd]. rewrite Nat2Z.id.
        repeat split; try lia; auto.
        -- intros i Hi He. destruct (Nat.eq_dec i n) as [-> | Hne]; [lia |].
           exfalso. apply (Hnone i); [lia | assumption].
        -- intros i Hi He. exfalso. apply (Hnone i); [lia | assumption].
      * destruct (Z.gtb_spec (move_weight b knowledge n) w).
        -- right. cbn [fst snd]. rewrite Nat2Z.id.
           repeat split; try lia; auto.
           ++ intros i Hi He. destruct (Nat.eq_dec i n) as [-> | Hne]; [lia |].
              specialize (Hmax i). lia.
           ++ intros i Hi He. specialize (Hmax i). lia.
        -- right. cbn [fst snd].
           repeat split; try lia; auto.
           intros i Hi He. destruct (Nat.eq_dec i n) as [-> | Hne]; [lia |].
           apply Hmax; [lia | assumption].
    + destruct IH as [[[= -> ->] Hnone] | (Hm & Hcell & Hmw & Hmax & Hfirst)].
      * left. split; [reflexivity |].
        intros i Hi. destruct (Nat.eq_dec i n) as [-> | Hne]; [assumption |].
        apply Hnone. lia.
      * right. cbn [fst snd]. repeat split; try lia; auto.
        intros i Hi He. destruct (Nat.eq_dec i n) as [-> | Hne]; [contradiction |].
        apply Hmax; [lia | assumption].
Qed.

(** The fallback loop returns an EMPTY cell when there is one. *)
Lemma priority_find_Some (p : nat) :
  find (fun p : nat => b !!! p =? EMPTY) priority = Some p ->
  (p < 9)%nat /\ b !!! p = EMPTY.
Proof.
  intros Hf. apply find_some in Hf as [Hin Hp].
  split; [| now apply Z.eqb_eq].
  unfold priority in Hin. simpl in Hin.
  repeat (destruct Hin as [<- | Hin]; [lia |]). contradiction.
Qed.

Lemma priority_find_None :
  find (fun p : nat => b !!! p =? EMPTY) priority = None ->
  forall i, (i < 9)%nat -> b !!! i <> EMPTY.
Proof.
  intros Hf i Hi.
  assert (In i priority) as Hin.
  { unfold priority.
    do 9 (destruct i as [| i]; [simpl; tauto |]). lia. }
  apply (find_none _ _ Hf) in Hin. now apply Z.eqb_neq.
Qed.

Lemma board_full_1 : board_full b = 1 <-> forall i, (i < 9)%nat -> b !!! i <> EMPTY.
Proof.
  unfold board_full.
  destruct (existsb _ (seq 0 9)) eqn:He.
  - split; [discriminate |]. intros Hall.
    apply existsb_exists in He as (i & Hin & Hi).
    apply in_seq in Hin. apply Z.eqb_eq in Hi. exfalso. apply (Hall i); [lia | assumption].
  - split; [| reflexivity]. intros _ i Hi Hcell.
    assert (existsb (fun i : nat => b !!! i =? EMPTY) (seq 0 9) = true) as Ht.
    { apply existsb_exists. exists i. split; [apply in_seq; lia | now apply Z.eqb_eq]. }
    congruence.
Qed.

End Moves.

(** What [compute_move] returns, from the weights of the candidates:
    on a board with an EMPTY cell, the first cell of the fallback order
    when the greatest candidate weight is 0, else the first candidate of
    greatest weight. *)
Lemma compute_move_choice (b : list Z) (knowledge : list kentry) (i0 : nat) :
  Forall kentry_ok knowledge ->
  (i0 < 9)%nat -> b !!! i0 = EMPTY ->
  exists best : nat,
    (best < 9)%nat /\ b !!! best = EMPTY /\
    (forall i, (i < 9)%nat -> b !!! i = EMPTY ->
       move_weight b knowledge i <= move_weight b knowledge best) /\
    (forall i, (i < best)%nat -> b !!! i = EMPTY ->
       move_weight b knowledge i < move_weight b knowledge best) /\
    (compute_move b knowledge).1 =
      if move_weight b knowledge best =? 0
      then match find (fun p : nat => b !!! p =? EMPTY) priority with
           | Some p => Z.of_nat p
           | None => Z.of_nat best
           end
      else Z.of_nat best.
Proof.
  intros Hok Hi0 Hcell. rewrite compute_move_unfold. cbn [fst].
  pose proof (scan_invariant b knowledge 9 Hok) as Hinv. cbv zeta in Hinv.
  destruct (fold_left (pick b knowledge) (seq 0 9) (-1, -1000)) as [m w].
  cbn [fst snd] in *.
  destruct Hinv as [[_ Hnone] | (Hm & Hmc & Hmw & Hmax & Hfirst)].
  { exfalso. now apply (Hnone i0). }
  exists (Z.to_nat m). rewrite <- Hmw, Z2Nat.id by lia.
  repeat split; auto; try lia.
  replace (m <? 0) with false by (symmetry; apply Z.ltb_ge; lia).
  reflexivity.
Qed.

(** C9: [compute_move] leaves the board as it found it, cell for cell,
    whatever the board and the table. *)
Theorem compute_move_board_unchanged (b : list Z) (knowledge : list kentry) :
  (compute_move b knowledge).2 = b.
Proof. rewrite compute_move_unfold. reflexivity. Qed.

(** C10: with a table of well-formed entries, [compute_move] on a board
    with an EMPTY cell returns a position from 0 to 8 whose cell is
    EMPTY; it returns -1 (or anything negative, which is what the driver
    tests before conceding) only on a full board, and on a full board it
    does return -1. *)
Theorem compute_move_legal (b : list Z) (knowledge : list kentry) :
  Forall kentry_ok knowledge ->
  ((exists i, (i < 9)%nat /\ b !!! i = EMPTY) ->
     0 <= (compute_move b knowledge).1 <= 8 /\
     b !!! Z.to_nat (compute_move b knowledge).1 = EMPTY) /\
  ((compute_move b knowledge).1 < 0 -> board_full b = 1) /\
  ((compute_move b knowledge).1 = -1 <-> board_full b = 1).
Proof.
  intros Hok.
  assert ((exists i, (i < 9)%nat /\ b !!! i = EMPTY) ->
          0 <= (compute_move b knowledge).1 <= 8 /\
          b !!! Z.to_nat (compute_move b knowledge).1 = EMPTY) as Hlegal.
  { intros (i0 & Hi0 & Hcell).
    destruct (compute_move_choice b knowledge i0 Hok Hi0 Hcell)
      as (best & Hbest & Hbc & _ & _ & ->).
    destruct (_ =? 0); [destruct (find _ priority) as [p |] eqn:Hf |].
    - apply priority_find_Some in Hf as [Hp Hpc].
      rewrite Nat2Z.id. split; [lia | assumption].
    - rewrite Nat2Z.id. split; [lia | assumption].
    - rewrite Nat2Z.id. split; [lia | assumption]. }
  assert ((compute_move b knowledge).1 < 0 -> board_full b = 1) as Hneg.
  { intros Hm. apply board_full_1. intros i Hi Hcell.
    destruct Hlegal as [Hr _]; [eauto | lia]. }
  split; [exact Hlegal |]. split; [exact Hneg |]. split.
  - intros Hm. apply Hneg. lia.
  - intros Hfull. rewrite board_full_1 in Hfull.
    rewrite compute_move_unfold. cbn [fst].
    pose proof (scan_invariant b knowledge 9 Hok) as Hinv. cbv zeta in Hinv.
    destruct (fold_left (pick b knowledge) (seq 0 9) (-1, -1000)) as [m w].
    cbn [fst snd] in *.
    destruct Hinv as [[[= -> ->] _] | (Hm & Hmc & _)].
    + change ((-1 <? 0) || (-1000 =? 0)) with true. cbv iota.
      destruct (find _ priority) as [p |] eqn:Hf; [| reflexivity].
      apply priority_find_Some in Hf as [Hp Hpc]. now apply Hfull in Hpc.
    + exfalso. apply (Hfull (Z.to_nat m)); [lia | assumption].
Qed.

Lemma compute_move_legal_witness :
  0 <= (compute_move [1; 0; 0; 0; 2; 0; 0; 0; 1] [Kentry 6727 (-2)]).1 <= 8 /\
  [1; 0; 0; 0; 2; 0; 0; 0; 1]
    !!! Z.to_nat (compute_move [1; 0; 0; 0; 2; 0; 0; 0; 1] [Kentry 6727 (-2)]).1
  = EMPTY.
Proof.
  assert (Forall kentry_ok [Kentry 6727 (-2)]) as Hok.
  { unfold kentry_ok. repeat constructor; simpl; lia. }
  apply (compute_move_legal [1; 0; 0; 0; 2; 0; 0; 0; 1] _ Hok).
  exists 1%nat. split; [lia | reflexivity].
Defined.

(** C4: the code departs from the rule.  With an empty table the game
    0, 4, 8, 2, 6, 1, 3 is lost by the computer (the human holds 0-3-6),
    and [update_knowledge] leaves weight -2 on its three boards.  In the
    next game, the human on cell 0 again, the candidates 1, 2, 3, 5, 6,
    7, 8 weigh 0 and the candidate 4 weighs -2: the weights are not all
    0 and the first candidate of greatest weight is 1.  [compute_move]
    takes the fallback order all the same, because the greatest weight
    is 0, and returns 4, the one candidate of least weight. *)
Theorem compute_move_fallback_ignores_weights :
  (compute_move [1; 0; 0; 0; 0; 0; 0; 0; 0] []).1 = 4 /\
  (compute_move [1; 0; 0; 0; 2; 0; 0; 0; 1] []).1 = 2 /\
  (compute_move [1; 0; 2; 0; 2; 0; 1; 0; 1] []).1 = 1 /\
  check_winner [1; 2; 2; 1; 2; 0; 1; 0; 1] = HUMAN /\
  update_knowledge HUMAN [0; 4; 8; 2; 6; 1; 3] []
    = ([1; 2; 2; 1; 2; 0; 1; 0; 1],
       [Kentry 6723 (-2); Kentry 8182 (-2); Kentry 12565 (-2)]) /\
  map (move_weight [1; 0; 0; 0; 0; 0; 0; 0; 0]
         [Kentry 6723 (-2); Kentry 8182 (-2); Kentry 12565 (-2)])
      [1; 2; 3; 4; 5; 6; 7; 8]%nat
    = [0; 0; 0; -2; 0; 0; 0; 0] /\
  compute_move [1; 0; 0; 0; 0; 0; 0; 0; 0]
    [Kentry 6723 (-2); Kentry 8182 (-2); Kentry 12565 (-2)]
    = (4, [1; 0; 0; 0; 0; 0; 0; 0; 0]).
Proof. repeat split; vm_compute; reflexivity. Qed.

(** * Learning from an outcome *)

(** The two clamping tests of [update_knowledge] never fire: the sum has
    already been stored in the [signed char] field, so what is stored is
    the sum reduced modulo 2^8. *)
Lemma bump_weight_wraps (w delta : Z) :
  bump_weight w delta = to_schar (w + delta).
Proof.
  unfold bump_weight. pose proof (to_schar_range (w + delta)) as Hr.
  destruct (Z.gtb_spec (to_schar (w + delta)) 127); [lia |].
  destruct (Z.ltb_spec (to_schar (w + delta)) (-128)); [lia | reflexivity].
Qed.

(** Away from the two ends of the range the sum is stored as it is. *)
Lemma bump_weight_exact (w delta : Z) :
  -128 <= w + delta <= 127 -> bump_weight w delta = w + delta.
Proof. intros H. rewrite bump_weight_wraps. now apply to_schar_small. Qed.

Section Learning.

Implicit Types (code delta : Z) (knowledge : list kentry).

Lemma adjust_entry_cons (n : nat) delta (e : kentry) knowledge :
  adjust_entry (Z.of_nat (S n)) delta (e :: knowledge) =
  e :: adjust_entry (Z.of_nat n) delta knowledge.
Proof.
  unfold adjust_entry. rewrite !Nat2Z.id. simpl.
  now destruct (knowledge !! n).
Qed.

Lemma weight_of_adjust_hit code delta knowledge :
  forall i j,
  index_of code knowledge i = Some j ->
  weight_of code (adjust_entry (j - i) delta knowledge) =
  bump_weight (weight_of code knowledge) delta.
Proof.
  induction knowledge as [| e rest IH]; intros i j; simpl index_of.
  - discriminate.
  - destruct (Z.eqb_spec (board e) code) as [He | He].
    + intros [= <-]. rewrite Z.sub_diag. unfold adjust_entry. simpl.
      now rewrite !(proj2 (Z.eqb_eq _ _) He).
    + intros Hj. pose proof (index_of_Some _ _ _ _ Hj) as [Hr _].
      replace (j - i) with (Z.of_nat (S (Z.to_nat (j - (i + 1))))) by lia.
      rewrite adjust_entry_cons. simpl.
      rewrite (proj2 (Z.eqb_neq _ _) He).
      rewrite Z2Nat.id by lia. now apply IH.
Qed.

Lemma weight_of_absent code knowledge :
  ~ In code (map board knowledge) -> weight_of code knowledge = 0.
Proof.
  induction knowledge as [| e rest IH]; simpl; [reflexivity |].
  intros Hout. destruct (Z.eqb_spec (board e) code); [tauto | apply IH; tauto].
Qed.

Lemma weight_of_adjust_new code delta knowledge :
  ~ In code (map board knowledge) ->
  adjust_entry (nknowledge knowledge) delta (knowledge ++ [Kentry code 0]) =
    knowledge ++ [Kentry code (bump_weight 0 delta)] /\
  weight_of code (knowledge ++ [Kentry code (bump_weight 0 delta)]) =
    bump_weight 0 delta.
Proof.
  intros Hout. unfold adjust_entry, nknowledge. rewrite Nat2Z.id. split.
  - rewrite lookup_app_r, Nat.sub_diag by lia. simpl.
    rewrite insert_app_r_alt, Nat.sub_diag by lia. reflexivity.
  - induction knowledge as [| e rest IH]; simpl.
    + now rewrite Z.eqb_refl.
    + simpl in Hout. destruct (Z.eqb_spec (board e) code); [tauto | apply IH; tauto].
Qed.

(** What one learning step does to the weight of its board: when
    [find_or_create] gives an index, the weight found for the code
    afterwards is the old one (0 for a new entry) changed by
    [bump_weight]. *)
Lemma weight_of_learned code delta knowledge idx k' :
  find_or_create code knowledge = (idx, k') ->
  0 <= idx ->
  weight_of code (adjust_entry idx delta k') =
  bump_weight (weight_of code knowledge) delta.
Proof.
  unfold find_or_create.
  destruct (index_of code knowledge 0) as [j |] eqn:Hi.
  - intros [= <- <-] _. rewrite <- (Z.sub_0_r j). now apply weight_of_adjust_hit.
  - apply index_of_None in Hi.
    destruct (_ <? _); intros [= <- <-] Hidx; [| lia].
    destruct (weight_of_adjust_new code delta knowledge Hi) as [-> ->].
    now rewrite weight_of_absent.
Qed.

(** Three moves, one of them the computer's: the weight of the board
    after the second move changes by the delta of the outcome, through
    [bump_weight], when the table held the board or had room for it. *)
Lemma update_knowledge_three_moves (outcome m0 m1 m2 : Z) knowledge :
  let code :=
    encode_board
      (<[Z.to_nat m1 := COMPUTER]> (<[Z.to_nat m0 := HUMAN]> (replicate 9 EMPTY))) in
  In code (map board knowledge) \/ nknowledge knowledge < MAX_KNOWLEDGE ->
  weight_of code (update_knowledge outcome [m0; m1; m2] knowledge).2 =
  bump_weight (weight_of code knowledge) (outcome_delta outcome).
Proof.
  intros code Hroom. unfold update_knowledge. cbn [replay].
  change (Z.of_nat 0 mod 2 =? 0) with true.
  change (Z.of_nat 0 mod 2 =? 1) with false.
  change (Z.of_nat 1 mod 2 =? 0) with false.
  change (Z.of_nat 1 mod 2 =? 1) with true.
  change (Z.of_nat 2 mod 2 =? 0) with true.
  change (Z.of_nat 2 mod 2 =? 1) with false.
  cbv iota. fold code.
  destruct (find_or_create code knowledge) as [idx k'] eqn:Hf.
  cbn [snd].
  assert (0 <= idx) as Hidx.
  { unfold find_or_create in Hf.
    destruct (index_of code knowledge 0) as [j |] eqn:Hi.
    - injection Hf as <- <-. apply index_of_Some in Hi. lia.
    - apply index_of_None in Hi. destruct Hroom as [Hin | Hlt]; [contradiction |].
      apply Z.ltb_lt in Hlt. rewrite Hlt in Hf. injection Hf as <- <-.
      unfold nknowledge. lia. }
  replace (idx >=? 0) with true by (symmetry; apply Z.geb_le; lia).
  now apply weight_of_learned.
Qed.

End Learning.

(** C3: the code departs from the rule.  The game 0, 4, 1, 2, 3, 6 is
    won by the computer on the line 2-4-6, and 42 such games from an
    empty table bring its three boards to weight 126, the computer
    choosing the same three moves from that table.  On the next win
    [update_knowledge] adds 3 and stores -127 for each board instead of
    127: the weight wraps around and has gone down after a positive
    change. *)
Theorem update_knowledge_wraps_at_top :
  check_winner [1; 1; 2; 1; 2; 0; 2; 0; 0] = COMPUTER /\
  Nat.iter 42
    (fun k => (update_knowledge COMPUTER [0; 4; 1; 2; 3; 6] k).2) []
    = [Kentry 6723 126; Kentry 10368 126; Kentry 10629 126] /\
  (compute_move [1; 0; 0; 0; 0; 0; 0; 0; 0]
     [Kentry 6723 126; Kentry 10368 126; Kentry 10629 126]).1 = 4 /\
  (compute_move [1; 1; 0; 0; 2; 0; 0; 0; 0]
     [Kentry 6723 126; Kentry 10368 126; Kentry 10629 126]).1 = 2 /\
  (compute_move [1; 1; 2; 1; 2; 0; 0; 0; 0]
     [Kentry 6723 126; Kentry 10368 126; Kentry 10629 126]).1 = 6 /\
  outcome_delta COMPUTER = 3 /\
  bump_weight 126 3 = -127 /\
  update_knowledge COMPUTER [0; 4; 1; 2; 3; 6]
    [Kentry 6723 126; Kentry 10368 126; Kentry 10629 126]
  = ([1; 1; 2; 1; 2; 0; 2; 0; 0],
     [Kentry 6723 (-127); Kentry 10368 (-127); Kentry 10629 (-127)]).
Proof. repeat split; vm_compute; reflexivity. Qed.

(** C7: the code departs from the rule.  With an empty table the human
    wins the game 0, 4, 8, 2, 6, 1, 3 by typing 1, 9, 7, 2, 4, and wins
    it again in every later round by typing the same, since the
    computer repeats its moves.  After 64 such rounds the three boards
    of the computer are at weight -128.  In the next round [main] calls
    [update_knowledge] with the outcome HUMAN and that history, and the
    change by -2 stores 126 for each of the three boards, where a change
    that saturates leaves -128. *)
Theorem update_knowledge_wraps_at_bottom :
  Nat.iter 64
    (fun k => match game_round [49; 57; 55; 50; 52] k with
              | Some (_, k', _, _) => k'
              | None => k
              end) []
    = [Kentry 6723 (-128); Kentry 8182 (-128); Kentry 12565 (-128)] /\
  game_loop [49; 57; 55; 50; 52] (replicate 9 EMPTY) []
    [Kentry 6723 (-128); Kentry 8182 (-128); Kentry 12565 (-128)]
    = Some (YouWin, [1; 2; 2; 1; 2; 0; 1; 0; 1], [0; 4; 8; 2; 6; 1; 3], []) /\
  outcome_delta (ending_outcome YouWin) = -2 /\
  update_knowledge HUMAN [0; 4; 8; 2; 6; 1; 3]
    [Kentry 6723 (-128); Kentry 8182 (-128); Kentry 12565 (-128)]
    = ([1; 2; 2; 1; 2; 0; 1; 0; 1],
       [Kentry 6723 126; Kentry 8182 126; Kentry 12565 126]) /\
  game_round [49; 57; 55; 50; 52]
    [Kentry 6723 (-128); Kentry 8182 (-128); Kentry 12565 (-128)]
    = Some (YouWin,
            [Kentry 6723 126; Kentry 8182 126; Kentry 12565 126],
            [67; 26; 126; 246; 31; 126; 21; 49; 126], []).
Proof.
  split; [vm_compute; reflexivity |].
  split; [vm_compute; reflexivity |].
  split; [vm_compute; reflexivity |].
  split; vm_compute; reflexivity.
Qed.

(** * The rule cascade *)

(** * The rules of the 2024 program, one at a time *)

Section Rules.

Import Ttt2024.

Implicit Types (player me opponent : ascii) (b : list ascii).

Lemma cell_insert_eq b (m : nat) (x : ascii) :
  (m < length b)%nat -> cell (<[m := x]> b) m = x.
Proof.
  intros Hm. unfold cell. rewrite nth_lookup.
  now rewrite list_lookup_insert_eq.
Qed.

Lemma cell_insert_ne b (m p : nat) (x : ascii) :
  m <> p -> cell (<[m := x]> b) p = cell b p.
Proof.
  intros Hm. unfold cell. rewrite !nth_lookup.
  now rewrite list_lookup_insert_ne.
Qed.

Lemma wins_range (p0 p1 p2 : nat) :
  In (p0, p1, p2) wins ->
  (1 <= p0 <= 9)%nat /\ (1 <= p1 <= 9)%nat /\ (1 <= p2 <= 9)%nat /\
  p0 <> p1 /\ p1 <> p2 /\ p0 <> p2.
Proof.
  unfold wins. simpl.
  intros H. repeat (destruct H as [[= <- <- <-] | H]; [lia |]). contradiction.
Qed.

Lemma completes_range player b (m : nat) :
  completes player b m -> (1 <= m <= 9)%nat /\ cell b m = " "%char.
Proof.
  intros (p0 & p1 & p2 & Hin & H). apply wins_range in Hin.
  destruct H as [(-> & H) | [(-> & H) | (-> & H)]]; split; tauto || lia.
Qed.

(** The inner loop on one line: it ends with [count = 2] and a cell in
    [empty] exactly when the line holds the player twice and a blank. *)
Lemma scan_line_hit player b (p0 p1 p2 : nat) (count empty : Z) :
  fold_left (scan_cell player b) [p0; p1; p2] (0, 0) = (count, empty) ->
  count = 2 -> empty > 0 ->
  exists m : nat,
    empty = Z.of_nat m /\
    ((m = p0 /\ cell b p0 = " "%char /\ cell b p1 = player /\ cell b p2 = player) \/
     (m = p1 /\ cell b p0 = player /\ cell b p1 = " "%char /\ cell b p2 = player) \/
     (m = p2 /\ cell b p0 = player /\ cell b p1 = player /\ cell b p2 = " "%char)).
Proof.
  cbn [fold_left]. unfold scan_cell.
  destruct (Ascii.eqb_spec (cell b p0) player);
    [| destruct (Ascii.eqb_spec (cell b p0) " "%char)];
    (destruct (Ascii.eqb_spec (cell b p1) player);
       [| destruct (Ascii.eqb_spec (cell b p1) " "%char)]);
    (destruct (Ascii.eqb_spec (cell b p2) player);
       [| destruct (Ascii.eqb_spec (cell b p2) " "%char)]);
    intros [= <- <-] Hc He; try lia;
    eexists; (split; [reflexivity |]); tauto.
Qed.

Lemma scan_line_complete player b (p0 p1 p2 m : nat) :
  player <> " "%char ->
  (0 < p0)%nat -> (0 < p1)%nat -> (0 < p2)%nat ->
  (m = p0 /\ cell b p0 = " "%char /\ cell b p1 = player /\ cell b p2 = player) \/
  (m = p1 /\ cell b p0 = player /\ cell b p1 = " "%char /\ cell b p2 = player) \/
  (m = p2 /\ cell b p0 = player /\ cell b p1 = player /\ cell b p2 = " "%char) ->
  fold_left (scan_cell player b) [p0; p1; p2] (0, 0) = (2, Z.of_nat m).
Proof.
  intros Hp H0 H1 H2 H. cbn [fold_left]. unfold scan_cell.
  destruct H as [(-> & Hb & Hx & Hy) | [(-> & Hx & Hb & Hy) | (-> & Hx & Hy & Hb)]];
    rewrite Hb, Hx, Hy;
    rewrite !Ascii.eqb_refl;
    (destruct (Ascii.eqb_spec " "%char player); [congruence | reflexivity]).
Qed.

Lemma find_winning_move_in_sound (lines : list (nat * nat * nat)) player b :
  find_winning_move_in lines player b > 0 ->
  exists (m p0 p1 p2 : nat),
    find_winning_move_in lines player b = Z.of_nat m /\
    In (p0, p1, p2) lines /\
    ((m = p0 /\ cell b p0 = " "%char /\ cell b p1 = player /\ cell b p2 = player) \/
     (m = p1 /\ cell b p0 = player /\ cell b p1 = " "%char /\ cell b p2 = player) \/
     (m = p2 /\ cell b p0 = player /\ cell b p1 = player /\ cell b p2 = " "%char)).
Proof.
  induction lines as [| [[p0 p1] p2] rest IH]; cbn [find_winning_move_in].
  - lia.
  - destruct (fold_left (scan_cell player b) [p0; p1; p2] (0, 0))
      as [count empty] eqn:Hscan.
    destruct (Z.eqb_spec count 2) as [Hc | Hc];
      [destruct (Z.gtb_spec empty 0) as [He | He] |]; cbn [andb].
    + intros _.
      destruct (scan_line_hit _ _ _ _ _ _ _ Hscan Hc) as (m & -> & H); [lia |].
      exists m, p0, p1, p2. split; [reflexivity |]. split; [now left | exact H].
    + intros Hpos. destruct (IH Hpos) as (m & q0 & q1 & q2 & Hm & Hin & H).
      exists m, q0, q1, q2. split; [exact Hm |]. split; [now right | exact H].
    + intros Hpos. destruct (IH Hpos) as (m & q0 & q1 & q2 & Hm & Hin & H).
      exists m, q0, q1, q2. split; [exact Hm |]. split; [now right | exact H].
Qed.

Lemma find_winning_move_in_nonneg (lines : list (nat * nat * nat)) player b :
  0 <= find_winning_move_in lines player b.
Proof.
  induction lines as [| [[p0 p1] p2] rest IH]; cbn [find_winning_move_in].
  - lia.
  - destruct (fold_left (scan_cell player b) [p0; p1; p2] (0, 0))
      as [count empty].
    destruct (Z.eqb_spec count 2); [destruct (Z.gtb_spec empty 0) |];
      cbn [andb]; lia.
Qed.

Lemma find_winning_move_in_complete (lines : list (nat * nat * nat))
    player b (m p0 p1 p2 : nat) :
  player <> " "%char ->
  (forall q0 q1 q2, In (q0, q1, q2) lines ->
     (0 < q0)%nat /\ (0 < q1)%nat /\ (0 < q2)%nat) ->
  In (p0, p1, p2) lines ->
  (m = p0 /\ cell b p0 = " "%char /\ cell b p1 = player /\ cell b p2 = player) \/
  (m = p1 /\ cell b p0 = player /\ cell b p1 = " "%char /\ cell b p2 = player) \/
  (m = p2 /\ cell b p0 = player /\ cell b p1 = player /\ cell b p2 = " "%char) ->
  find_winning_move_in lines player b > 0.
Proof.
  intros Hp. induction lines as [| [[q0 q1] q2] rest IH];
    intros Hpos Hin H; cbn [find_winning_move_in].
  - contradiction.
  - destruct (fold_left (scan_cell player b) [q0; q1; q2] (0, 0))
      as [count empty] eqn:Hscan.
    destruct (Z.eqb_spec count 2) as [Hc | Hc];
      [destruct (Z.gtb_spec empty 0) as [He | He] |]; cbn [andb]; [lia | |].
    + destruct Hin as [[= -> -> ->] | Hin].
      * destruct (Hpos p0 p1 p2 (or_introl eq_refl)) as (H0 & H1 & H2).
        rewrite (scan_line_complete player b p0 p1 p2 m Hp H0 H1 H2 H) in Hscan.
        injection Hscan as _ <-.
        assert (0 < m)%nat by (destruct H as [(-> & _) | [(-> & _) | (-> & _)]]; lia).
        lia.
      * apply IH; auto. intros. apply Hpos. now right.
    + destruct Hin as [[= -> -> ->] | Hin].
      * destruct (Hpos p0 p1 p2 (or_introl eq_refl)) as (H0 & H1 & H2).
        rewrite (scan_line_complete player b p0 p1 p2 m Hp H0 H1 H2 H) in Hscan.
        injection Hscan as <- _. contradiction.
      * apply IH; auto. intros. apply Hpos. now right.
Qed.

Lemma find_winning_move_completes player b :
  find_winning_move player b > 0 ->
  exists m : nat,
    find_winning_move player b = Z.of_nat m /\ completes player b m.
Proof.
  intros Hpos. apply find_winning_move_in_sound in Hpos.
  destruct Hpos as (m & p0 & p1 & p2 & Hm & Hin & H).
  exists m. split; [exact Hm |]. now exists p0, p1, p2.
Qed.

Lemma completes_find_winning_move player b (m : nat) :
  player <> " "%char -> completes player b m ->
  find_winning_move player b > 0.
Proof.
  intros Hp (p0 & p1 & p2 & Hin & H).
  apply (find_winning_move_in_complete wins player b m p0 p1 p2); auto.
  intros q0 q1 q2 Hq. apply wins_range in Hq. lia.
Qed.

(** Writing the player's mark on a cell that completes a line wins. *)
Lemma completes_check_win player b (m : nat) :
  length b = 10%nat -> completes player b m ->
  check_win player (<[m := player]> b) = 1.
Proof.
  intros Hlen (p0 & p1 & p2 & Hin & H).
  unfold check_win.
  replace (existsb _ wins) with true; [reflexivity |].
  symmetry. apply existsb_exists. exists (p0, p1, p2). split; [exact Hin |].
  pose proof (wins_range _ _ _ Hin) as (H0 & H1 & H2 & Hd01 & Hd12 & Hd02).
  destruct H as [(-> & Hb & Hx & Hy) | [(-> & Hx & Hb & Hy) | (-> & Hx & Hy & Hb)]].
  - rewrite cell_insert_eq by lia. rewrite !cell_insert_ne by lia.
    rewrite Hx, Hy. now rewrite !Ascii.eqb_refl.
  - rewrite cell_insert_eq by lia. rewrite !cell_insert_ne by lia.
    rewrite Hx, Hy. now rewrite !Ascii.eqb_refl.
  - rewrite cell_insert_eq by lia. rewrite !cell_insert_ne by lia.
    rewrite Hx, Hy. now rewrite !Ascii.eqb_refl.
Qed.

End Rules.

Section Cascade.

Import Ttt2024.

Implicit Types (player me opponent : ascii) (b : list ascii).

(** A cell whose mark turns a board without a line of the player into
    one with such a line completes a line. *)
Lemma winning_cell_completes player b (m : nat) :
  cell b m = " "%char ->
  check_win player b = 0 ->
  check_win player (<[m := player]> b) = 1 ->
  completes player b m.
Proof.
  unfold check_win. intros Hblank Hnot Hwin.
  destruct (existsb _ wins) eqn:Hafter in Hwin; [| discriminate].
  destruct (existsb _ wins) eqn:Hbefore in Hnot; [discriminate |].
  apply existsb_exists in Hafter as ([[p0 p1] p2] & Hin & Hline).
  apply andb_prop in Hline as [Hline H2]. apply andb_prop in Hline as [H0 H1].
  destruct (Ascii.eqb_spec (cell (<[m := player]> b) p0) player) as [E0 |]; [| discriminate].
  destruct (Ascii.eqb_spec (cell (<[m := player]> b) p1) player) as [E1 |]; [| discriminate].
  destruct (Ascii.eqb_spec (cell (<[m := player]> b) p2) player) as [E2 |]; [| discriminate].
  pose proof (wins_range _ _ _ Hin) as (_ & _ & _ & Hd01 & Hd12 & Hd02).
  exists p0, p1, p2. split; [exact Hin |].
  destruct (Nat.eq_dec m p0) as [-> | N0];
    [| destruct (Nat.eq_dec m p1) as [-> | N1];
       [| destruct (Nat.eq_dec m p2) as [-> | N2]]].
  - rewrite cell_insert_ne in E1, E2 by lia. tauto.
  - rewrite cell_insert_ne in E0, E2 by lia. tauto.
  - rewrite cell_insert_ne in E0, E1 by lia. tauto.
  - rewrite cell_insert_ne in E0, E1, E2 by lia.
    assert (existsb
              (fun '(p0, p1, p2) =>
                 Ascii.eqb (cell b p0) player && Ascii.eqb (cell b p1) player
                 && Ascii.eqb (cell b p2) player) wins = true) as Ht.
    { apply existsb_exists. exists (p0, p1, p2). split; [exact Hin |].
      rewrite E0, E1, E2. now rewrite Ascii.eqb_refl. }
    congruence.
Qed.

Lemma opposite_corner_Some opponent b (o : nat) :
  opposite_corner corners opposite opponent b = Some o ->
  (1 <= o <= 9)%nat /\ cell b o = " "%char.
Proof.
  unfold corners, opposite. cbn [opposite_corner].
  repeat match goal with
         | |- context [Ascii.eqb (cell b ?c) opponent && Ascii.eqb (cell b ?q) " "%char] =>
             destruct (Ascii.eqb (cell b c) opponent);
             [destruct (Ascii.eqb_spec (cell b q) " "%char) |]; cbn [andb]
         end;
    intros [= <-]; (split; [lia | assumption]).
Qed.

Lemma find_blank_Some b (cells : list nat) (c : nat) :
  find (fun c => Ascii.eqb (cell b c) " "%char) cells = Some c ->
  In c cells /\ cell b c = " "%char.
Proof.
  intros Hf. apply find_some in Hf as [Hin Hc].
  split; [exact Hin |]. now destruct (Ascii.eqb_spec (cell b c) " "%char).
Qed.

Lemma find_blank_None b (cells : list nat) (c : nat) :
  find (fun c => Ascii.eqb (cell b c) " "%char) cells = None ->
  In c cells -> cell b c <> " "%char.
Proof.
  intros Hf Hin Hc. apply (find_none _ _ Hf) in Hin.
  rewrite Hc in Hin. discriminate.
Qed.

(** The five ways [best_move] can return. *)
Lemma best_move_cases me opponent b :
  (find_winning_move me b > 0 /\
   best_move me opponent b = find_winning_move me b) \/
  (find_winning_move me b = 0 /\ find_winning_move opponent b > 0 /\
   best_move me opponent b = find_winning_move opponent b) \/
  (find_winning_move me b = 0 /\ find_winning_move opponent b = 0 /\
   ((exists m : nat, best_move me opponent b = Z.of_nat m /\
       (1 <= m <= 9)%nat /\ cell b m = " "%char) \/
    (best_move me opponent b = 0 /\
     forall m, (1 <= m <= 9)%nat -> cell b m <> " "%char))).
Proof.
  unfold best_move.
  pose proof (find_winning_move_in_nonneg wins me b) as Hme.
  pose proof (find_winning_move_in_nonneg wins opponent b) as Hop.
  fold (find_winning_move me b) in Hme. fold (find_winning_move opponent b) in Hop.
  destruct (Z.gtb_spec (find_winning_move me b) 0) as [H1 | H1]; [left; lia |].
  destruct (Z.gtb_spec (find_winning_move opponent b) 0) as [H2 | H2];
    [right; left; lia |].
  right; right. split; [lia |]. split; [lia |].
  destruct (Ascii.eqb_spec (cell b 5) " "%char) as [H5 | H5].
  { left. exists 5%nat. split; [reflexivity |]. split; [lia | assumption]. }
  destruct (opposite_corner corners opposite opponent b) as [o |] eqn:Ho.
  { left. exists o. split; [reflexivity |]. now apply opposite_corner_Some in Ho. }
  destruct (find _ corners) as [c |] eqn:Hc.
  { left. exists c. split; [reflexivity |].
    apply find_blank_Some in Hc as [Hin Hb]. split; [| exact Hb].
    unfold corners in Hin. simpl in Hin.
    repeat (destruct Hin as [<- | Hin]; [lia |]). contradiction. }
  destruct (find _ edges) as [e |] eqn:He.
  { left. exists e. split; [reflexivity |].
    apply find_blank_Some in He as [Hin Hb]. split; [| exact Hb].
    unfold edges in Hin. simpl in Hin.
    repeat (destruct Hin as [<- | Hin]; [lia |]). contradiction. }
  right. split; [reflexivity |].
  intros m Hm.
  destruct (Nat.eq_dec m 5%nat) as [-> | N5]; [exact H5 |].
  assert (In m corners \/ In m edges) as [Hin | Hin].
  { unfold corners, edges. simpl.
    do 10 (destruct m as [| m]; [lia || tauto |]). lia. }
  - now apply (find_blank_None b corners).
  - now apply (find_blank_None b edges).
Qed.

Lemma read_move_Some (inputs rest : list Z) b (move : Z) :
  read_move inputs b = Some (move, rest) ->
  In move [1; 2; 3; 4; 5; 6; 7; 8; 9] /\
  ((move <? 1) || (move >? 9)
   || negb (Ascii.eqb (cell b (Z.to_nat move)) " "%char)) = false.
Proof.
  induction inputs as [| c inputs IH]; cbn [read_move]; [discriminate |].
  destruct ((c <? 1) || (c >? 9)
            || negb (Ascii.eqb (cell b (Z.to_nat c)) " "%char)) eqn:Hc;
    [exact IH |].
  intros [= <- <-]. split; [| exact Hc].
  apply orb_false_elim in Hc as [Hc _]. apply orb_false_elim in Hc as [Hlo Hhi].
  apply Z.ltb_ge in Hlo. rewrite Z.gtb_ltb in Hhi. apply Z.ltb_ge in Hhi.
  assert (c = 1 \/ c = 2 \/ c = 3 \/ c = 4 \/ c = 5 \/ c = 6 \/ c = 7 \/ c = 8 \/ c = 9)
    as H by lia.
  simpl. intuition.
Qed.

(** What [explore] accepts holds of every game [turns] can play. *)
Lemma explore_sound (P : outcome -> list ascii -> bool) (n : nat) :
  forall (turn : Z) (human computer : ascii) (b : list ascii) (inputs : list Z),
  explore P n turn human computer b = true ->
  P (turns n turn human computer inputs b).1
    (turns n turn human computer inputs b).2 = true.
Proof.
  induction n as [| n IH]; intros turn human computer b inputs;
    cbn [explore turns]; [trivial |].
  destruct (Ascii.eqb (if turn mod 2 =? 0 then "X"%char else "O"%char) human).
  - intros Hex. apply andb_prop in Hex as [Hstop Hall].
    destruct (read_move inputs b) as [[move rest] |] eqn:Hread; [| exact Hstop].
    apply read_move_Some in Hread as [Hin Hvalid].
    rewrite forallb_forall in Hall. specialize (Hall move Hin).
    rewrite Hvalid in Hall.
    destruct (check_win _ _ =? 1); [exact Hall | now apply IH].
  - destruct (check_win _ _ =? 1); [trivial | apply IH].
Qed.

End Cascade.

(** X1: when [find_winning_move] returns a cell (a result above 0) on a
    board of ten cells, the cell is one of 1 to 9, it is blank, and
    writing the player's mark there gives the player a line. *)
Theorem find_winning_move_wins (player : ascii) (b : list ascii) :
  length b = 10%nat ->
  Ttt2024.find_winning_move player b > 0 ->
  1 <= Ttt2024.find_winning_move player b <= 9 /\
  Ttt2024.cell b (Z.to_nat (Ttt2024.find_winning_move player b)) = " "%char /\
  Ttt2024.check_win player
    (<[Z.to_nat (Ttt2024.find_winning_move player b) := player]> b) = 1.
Proof.
  intros Hlen Hpos.
  destruct (find_winning_move_completes player b Hpos) as (m & -> & Hm).
  rewrite Nat2Z.id. pose proof (completes_range _ _ _ Hm) as [Hr Hb].
  split; [lia |]. split; [exact Hb |]. now apply completes_check_win.
Qed.

Lemma find_winning_move_wins_witness :
  Ttt2024.find_winning_move "X"
    [" "; "X"; "X"; " "; " "; "O"; " "; " "; "O"; " "]%char = 3 /\
  Ttt2024.check_win "X"
    (<[Z.to_nat (Ttt2024.find_winning_move "X"
                   [" "; "X"; "X"; " "; " "; "O"; " "; " "; "O"; " "]%char)
       := "X"%char]>
       [" "; "X"; "X"; " "; " "; "O"; " "; " "; "O"; " "]%char) = 1.
Proof.
  split; [reflexivity |].
  apply (find_winning_move_wins "X"
           [" "; "X"; "X"; " "; " "; "O"; " "; " "; "O"; " "]%char);
    [reflexivity | vm_compute; reflexivity].
Defined.

(** X2: [find_winning_move] misses no winning cell.  For a player whose
    mark is not the blank and who has no line yet, if some blank cell
    gives the player a line once marked, the result is above 0. *)
Theorem find_winning_move_finds (player : ascii) (b : list ascii) (m : nat) :
  player <> " "%char ->
  Ttt2024.cell b m = " "%char ->
  Ttt2024.check_win player b = 0 ->
  Ttt2024.check_win player (<[m := player]> b) = 1 ->
  Ttt2024.find_winning_move player b > 0.
Proof.
  intros Hp Hblank Hnot Hwin.
  apply (completes_find_winning_move player b m Hp).
  now apply winning_cell_completes.
Qed.

Lemma find_winning_move_finds_witness :
  Ttt2024.find_winning_move "O"
    [" "; "X"; " "; "O"; "X"; "O"; " "; " "; " "; "X"]%char > 0.
Proof.
  apply (find_winning_move_finds "O"
           [" "; "X"; " "; "O"; "X"; "O"; " "; " "; " "; "X"]%char 7);
    [discriminate | reflexivity | reflexivity | reflexivity].
Defined.

(** X3: on any board with a blank cell among 1 to 9, [best_move]
    returns one of the cells 1 to 9 that is blank; it returns 0 exactly
    when none of the nine cells is blank. *)
Theorem best_move_legal (me opponent : ascii) (b : list ascii) :
  ((exists m, (1 <= m <= 9)%nat /\ Ttt2024.cell b m = " "%char) ->
   1 <= Ttt2024.best_move me opponent b <= 9 /\
   Ttt2024.cell b (Z.to_nat (Ttt2024.best_move me opponent b)) = " "%char) /\
  (Ttt2024.best_move me opponent b = 0 <->
   forall m, (1 <= m <= 9)%nat -> Ttt2024.cell b m <> " "%char).
Proof.
  assert (forall player, Ttt2024.find_winning_move player b > 0 ->
            1 <= Ttt2024.find_winning_move player b <= 9 /\
            Ttt2024.cell b (Z.to_nat (Ttt2024.find_winning_move player b)) = " "%char)
    as Hfwm.
  { intros player Hpos.
    destruct (find_winning_move_completes player b Hpos) as (m & -> & Hm).
    rewrite Nat2Z.id. apply completes_range in Hm. split; [lia | tauto]. }
  destruct (best_move_cases me opponent b)
    as [(H1 & ->) | [(H1 & H2 & ->) | (H1 & H2 & [(m & -> & Hr & Hb) | (-> & Hnone)])]].
  - pose proof (Hfwm me H1) as [Hr Hb]. split; [tauto |]. split; [lia |].
    intros Hnone. exfalso.
    apply (Hnone (Z.to_nat (Ttt2024.find_winning_move me b))); [lia | exact Hb].
  - pose proof (Hfwm opponent H2) as [Hr Hb]. split; [tauto |]. split; [lia |].
    intros Hnone. exfalso.
    apply (Hnone (Z.to_nat (Ttt2024.find_winning_move opponent b))); [lia | exact Hb].
  - rewrite Nat2Z.id. split; [intros _; split; [lia | exact Hb] |].
    split; [lia |]. intros Hnone. exfalso. now apply (Hnone m).
  - split; [| tauto]. intros (m & Hm & Hb). exfalso. now apply (Hnone m).
Qed.

Lemma best_move_legal_witness :
  1 <= Ttt2024.best_move "O" "X"
         [" "; "X"; "O"; "X"; "X"; "O"; "O"; "O"; "X"; " "]%char <= 9 /\
  Ttt2024.cell [" "; "X"; "O"; "X"; "X"; "O"; "O"; "O"; "X"; " "]%char
    (Z.to_nat (Ttt2024.best_move "O" "X"
                 [" "; "X"; "O"; "X"; "X"; "O"; "O"; "O"; "X"; " "]%char))
  = " "%char.
Proof.
  apply (proj1 (best_move_legal "O" "X"
                  [" "; "X"; "O"; "X"; "X"; "O"; "O"; "O"; "X"; " "]%char)).
  exists 9%nat. split; [lia | reflexivity].
Defined.

(** X4: rule 1.  If the mover (whose mark is not the blank) has no line
    yet and some blank cell would give one, [best_move] returns a blank
    cell that gives one: the move wins at once. *)
Theorem best_move_takes_win (me opponent : ascii) (b : list ascii) (m : nat) :
  me <> " "%char ->
  length b = 10%nat ->
  Ttt2024.cell b m = " "%char ->
  Ttt2024.check_win me b = 0 ->
  Ttt2024.check_win me (<[m := me]> b) = 1 ->
  Ttt2024.cell b (Z.to_nat (Ttt2024.best_move me opponent b)) = " "%char /\
  Ttt2024.check_win me
    (<[Z.to_nat (Ttt2024.best_move me opponent b) := me]> b) = 1.
Proof.
  intros Hme Hlen Hblank Hnot Hwin.
  assert (Ttt2024.find_winning_move me b > 0) as Hpos.
  { apply (completes_find_winning_move me b m Hme).
    now apply winning_cell_completes. }
  destruct (best_move_cases me opponent b) as [(_ & ->) | [(H0 & _) | (H0 & _)]];
    [| lia | lia].
  destruct (find_winning_move_completes me b Hpos) as (w & -> & Hw).
  rewrite Nat2Z.id. split; [now apply completes_range in Hw |].
  now apply completes_check_win.
Qed.

Lemma best_move_takes_win_witness :
  Ttt2024.check_win "X"
    (<[Z.to_nat (Ttt2024.best_move "X" "O"
                   [" "; "X"; "X"; " "; " "; "O"; " "; " "; "O"; " "]%char)
       := "X"%char]>
       [" "; "X"; "X"; " "; " "; "O"; " "; " "; "O"; " "]%char) = 1.
Proof.
  apply (best_move_takes_win "X" "O"
           [" "; "X"; "X"; " "; " "; "O"; " "; " "; "O"; " "]%char 3);
    [discriminate | reflexivity | reflexivity | reflexivity | reflexivity].
Defined.

(** X5: rule 2.  If no blank cell gives the mover a line, while the
    opponent (whose mark is not the blank, and who has no line yet)
    would get one from some blank cell, [best_move] returns a blank cell
    that would have given the opponent a line. *)
Theorem best_move_blocks (me opponent : ascii) (b : list ascii) (m : nat) :
  opponent <> " "%char ->
  length b = 10%nat ->
  (forall c : nat, Ttt2024.cell b c = " "%char ->
     Ttt2024.check_win me (<[c := me]> b) = 0) ->
  Ttt2024.cell b m = " "%char ->
  Ttt2024.check_win opponent b = 0 ->
  Ttt2024.check_win opponent (<[m := opponent]> b) = 1 ->
  Ttt2024.cell b (Z.to_nat (Ttt2024.best_move me opponent b)) = " "%char /\
  Ttt2024.check_win opponent
    (<[Z.to_nat (Ttt2024.best_move me opponent b) := opponent]> b) = 1.
Proof.
  intros Hop Hlen Hnowin Hblank Hnot Hwin.
  assert (Ttt2024.find_winning_move opponent b > 0) as Hpos.
  { apply (completes_find_winning_move opponent b m Hop).
    now apply winning_cell_completes. }
  assert (~ Ttt2024.find_winning_move me b > 0) as Hme.
  { intros Hp. destruct (find_winning_move_completes me b Hp) as (w & _ & Hw).
    pose proof (completes_check_win me b w Hlen Hw) as H1.
    rewrite Hnowin in H1; [discriminate | now apply completes_range in Hw]. }
  destruct (best_move_cases me opponent b)
    as [(H1 & _) | [(_ & _ & ->) | (_ & H0 & _)]]; [contradiction | | lia].
  destruct (find_winning_move_completes opponent b Hpos) as (w & -> & Hw).
  rewrite Nat2Z.id. split; [now apply completes_range in Hw |].
  now apply completes_check_win.
Qed.

Lemma best_move_blocks_witness :
  Ttt2024.best_move "O" "X"
    [" "; "X"; " "; "O"; " "; "O"; " "; "X"; " "; "X"]%char = 8 /\
  Ttt2024.check_win "X"
    (<[Z.to_nat (Ttt2024.best_move "O" "X"
                   [" "; "X"; " "; "O"; " "; "O"; " "; "X"; " "; "X"]%char)
       := "X"%char]>
       [" "; "X"; " "; "O"; " "; "O"; " "; "X"; " "; "X"]%char) = 1.
Proof.
  split; [reflexivity |].
  apply (best_move_blocks "O" "X"
           [" "; "X"; " "; "O"; " "; "O"; " "; "X"; " "; "X"]%char 8).
  - discriminate.
  - reflexivity.
  - intros c Hc.
    do 10 (destruct c as [| c]; [first [discriminate Hc | reflexivity] |]).
    reflexivity.
  - reflexivity.
  - reflexivity.
  - reflexivity.
Defined.


(** On a board whose ten cells are all blank, which [main] never has,
    the same rules lose: against 1, 9, 7, 4 the computer answers 5, 3
    and 8, and the human completes 1-4-7.  It is the NUL in cell 9 that
    keeps the human from the second corner of that line of play. *)
Remark best_move_on_ten_blanks :
  Ttt2024.turns 9 0 "X" "O" [1; 9; 7; 4] (replicate 10 " "%char)
    = (Ttt2024.HumanWins,
       [" "; "X"; " "; "O"; "X"; "O"; " "; "X"; "O"; "X"]%char) /\
  Ttt2024.play "X" "O" [1; 9; 7; 4]
    = (Ttt2024.InputExhausted,
       [" "; "X"; " "; " "; "O"; "O"; " "; "X"; " "; "000"]%char).
Proof. split; vm_compute; reflexivity. Qed.

(** X6: the computer never loses a game in which it moves first.  With
    the human on O and the computer on X, whatever the human types, the
    game of [main] does not end with a line of the human. *)
Theorem first_player_never_loses (inputs : list Z) :
  (Ttt2024.play "O" "X" inputs).1 <> Ttt2024.HumanWins.
Proof.
  assert (Ttt2024.explore Ttt2024.not_lost 9 0 "O" "X" Ttt2024.initial_board = true)
    as Hall by (vm_compute; reflexivity).
  pose proof (explore_sound _ _ _ _ _ _ inputs Hall) as Hsafe.
  unfold Ttt2024.play. intros Hlost. rewrite Hlost in Hsafe. discriminate.
Qed.

(** X7: a game in which the human moves first is never played to its
    end.  The human needs five moves and the computer four, and only
    the cells 1 to 8 can be played: whatever the human types, the game
    of [main] either is won by the computer or is left waiting for a
    move of the human; it is neither drawn nor won by the human. *)
Theorem human_first_game_won_or_waiting (inputs : list Z) :
  (Ttt2024.play "X" "O" inputs).1 = Ttt2024.ComputerWins \/
  (Ttt2024.play "X" "O" inputs).1 = Ttt2024.InputExhausted.
Proof.
  assert (Ttt2024.explore Ttt2024.won_or_waiting 9 0 "X" "O"
            Ttt2024.initial_board = true)
    as Hall by (vm_compute; reflexivity).
  pose proof (explore_sound _ _ _ _ _ _ inputs Hall) as Hs.
  unfold Ttt2024.play.
  destruct (Ttt2024.turns 9 0 "X" "O" inputs Ttt2024.initial_board).1;
    cbv beta iota delta [Ttt2024.won_or_waiting] in Hs; auto; discriminate.
Qed.

(** X22: cell 9 is never played.  In every game of [main], with the
    human on either mark and whatever the human types, cell 9 of the
    board holds the NUL it started with: [main] refuses 9 as a move of
    the human and [best_move] never chooses it. *)
Theorem cell_nine_never_played (inputs : list Z) :
  Ttt2024.cell (Ttt2024.play "X" "O" inputs).2 9 = "000"%char /\
  Ttt2024.cell (Ttt2024.play "O" "X" inputs).2 9 = "000"%char.
Proof.
  assert (forall human computer,
            Ttt2024.explore Ttt2024.nine_idle 9 0 human computer
              Ttt2024.initial_board = true ->
            Ttt2024.cell (Ttt2024.play human computer inputs).2 9 = "000"%char)
    as Hidle.
  { intros human computer Hall.
    pose proof (explore_sound _ _ _ _ _ _ inputs Hall) as Hs.
    unfold Ttt2024.nine_idle in Hs.
    apply Ascii.eqb_eq in Hs. exact Hs. }
  split; apply Hidle; vm_compute; reflexivity.
Qed.

(** X23: the unused cell 0 is written in a drawn game.  When the
    computer moves first and the game runs its nine turns, the ninth
    turn finds no blank cell, [best_move] returns 0 and [main] writes
    the computer's X into cell 0: a game that ends in a draw has X in
    cell 0, and every other game leaves cell 0 blank.  When the human
    moves first cell 0 stays blank. *)
Theorem cell_zero_written_on_draw (inputs : list Z) :
  ((Ttt2024.play "O" "X" inputs).1 = Ttt2024.Draw ->
   Ttt2024.cell (Ttt2024.play "O" "X" inputs).2 0 = "X"%char) /\
  ((Ttt2024.play "O" "X" inputs).1 <> Ttt2024.Draw ->
   Ttt2024.cell (Ttt2024.play "O" "X" inputs).2 0 = " "%char) /\
  Ttt2024.cell (Ttt2024.play "X" "O" inputs).2 0 = " "%char.
Proof.
  assert (Ttt2024.explore Ttt2024.zero_on_draw 9 0 "O" "X"
            Ttt2024.initial_board = true)
    as Hfirst by (vm_compute; reflexivity).
  assert (Ttt2024.explore Ttt2024.zero_blank 9 0 "X" "O"
            Ttt2024.initial_board = true)
    as Hsecond by (vm_compute; reflexivity).
  pose proof (explore_sound _ _ _ _ _ _ inputs Hfirst) as H1.
  pose proof (explore_sound _ _ _ _ _ _ inputs Hsecond) as H2.
  unfold Ttt2024.play, Ttt2024.zero_blank in *.
  split; [| split].
  - intros Hd. rewrite Hd in H1.
    cbv beta iota delta [Ttt2024.zero_on_draw] in H1.
    apply Ascii.eqb_eq in H1. exact H1.
  - intros Hd.
    destruct (Ttt2024.turns 9 0 "O" "X" inputs Ttt2024.initial_board).1;
      cbv beta iota delta [Ttt2024.zero_on_draw] in H1;
      [apply Ascii.eqb_eq in H1; exact H1
      | apply Ascii.eqb_eq in H1; exact H1
      | now contradiction Hd
      | apply Ascii.eqb_eq in H1; exact H1].
  - apply Ascii.eqb_eq in H2. exact H2.
Qed.

Lemma cell_zero_written_on_draw_witness :
  Ttt2024.play "O" "X" [8; 7; 2; 6]
    = (Ttt2024.Draw, ["X"; "X"; "O"; "X"; "X"; "X"; "O"; "O"; "O"; "000"]%char) /\
  Ttt2024.cell (Ttt2024.play "O" "X" [8; 7; 2; 6]).2 0 = "X"%char.
Proof.
  split; [reflexivity |].
  apply (proj1 (cell_zero_written_on_draw [8; 7; 2; 6])). reflexivity.
Defined.

(** * The table under learning *)

Section Updates.

Implicit Types (code delta : Z) (knowledge : list kentry).

Lemma weight_of_app_new code c knowledge :
  weight_of c (knowledge ++ [Kentry code 0]) = weight_of c knowledge.
Proof.
  induction knowledge as [| e rest IH]; simpl.
  - now destruct (code =? c).
  - now destruct (board e =? c).
Qed.

Lemma find_or_create_weight_of code c knowledge :
  weight_of c (find_or_create code knowledge).2 = weight_of c knowledge.
Proof.
  unfold find_or_create.
  destruct (index_of code knowledge 0); [reflexivity |].
  destruct (_ <? _); [| reflexivity].
  apply weight_of_app_new.
Qed.

Lemma insert_same_board (n : nat) (e : kentry) (w : Z) knowledge :
  knowledge !! n = Some e ->
  map board (<[n := Kentry (board e) w]> knowledge) = map board knowledge.
Proof.
  revert n. induction knowledge as [| e' rest IH]; intros [| n]; simpl;
    try discriminate.
  - now intros [= ->].
  - intros Hn. f_equal. now apply IH.
Qed.

Lemma adjust_entry_boards idx delta knowledge :
  map board (adjust_entry idx delta knowledge) = map board knowledge.
Proof.
  unfold adjust_entry.
  destruct (knowledge !! Z.to_nat idx) as [e |] eqn:He; [| reflexivity].
  now apply insert_same_board.
Qed.

Lemma adjust_entry_length idx delta knowledge :
  length (adjust_entry idx delta knowledge) = length knowledge.
Proof.
  rewrite <- (length_map board), adjust_entry_boards. apply length_map.
Qed.

Lemma adjust_entry_ok idx delta knowledge :
  Forall kentry_ok knowledge -> Forall kentry_ok (adjust_entry idx delta knowledge).
Proof.
  intros Hok. unfold adjust_entry.
  destruct (knowledge !! Z.to_nat idx) as [e |] eqn:He; [| exact Hok].
  apply Forall_insert; [exact Hok |].
  pose proof (Forall_lookup_1 _ _ _ _ Hok He) as [Hb _].
  split; simpl; [exact Hb |].
  rewrite bump_weight_wraps. apply to_schar_range.
Qed.

Lemma insert_other_weight (n : nat) (e : kentry) (w c : Z) knowledge :
  knowledge !! n = Some e -> board e <> c ->
  weight_of c (<[n := Kentry (board e) w]> knowledge) = weight_of c knowledge.
Proof.
  revert n. induction knowledge as [| e' rest IH]; intros [| n]; simpl;
    try discriminate.
  - intros [= ->] Hne. now rewrite (proj2 (Z.eqb_neq _ _) Hne).
  - intros Hn Hne. destruct (board e' =? c); [reflexivity | now apply IH].
Qed.

Lemma encode_board_range (b : list Z) : 0 <= encode_board b <= 65535.
Proof.
  unfold encode_board. change (seq 0 9) with (seq 0 8 ++ [8%nat]).
  rewrite fold_left_app.
  generalize (fold_left (encode_step b) (seq 0 8) 0). intros r.
  cbn [fold_left]. unfold encode_step, to_ushort.
  pose proof (Z.mod_pos_bound (r * 3 + b !!! 8%nat) 65536). lia.
Qed.

(** The entry [find_or_create] points at holds the code. *)
Lemma find_or_create_entry code knowledge idx k :
  find_or_create code knowledge = (idx, k) -> 0 <= idx ->
  exists e, k !! Z.to_nat idx = Some e /\ board e = code.
Proof.
  unfold find_or_create.
  destruct (index_of code knowledge 0) as [j |] eqn:Hi.
  - intros [= <- <-] _. apply index_of_Some in Hi.
    rewrite Z.sub_0_r in Hi. tauto.
  - destruct (_ <? _); intros [= <- <-] Hidx; [| lia].
    exists (Kentry code 0). split; [| reflexivity].
    unfold nknowledge. rewrite Nat2Z.id.
    rewrite lookup_app_r, Nat.sub_diag by lia. reflexivity.
Qed.

Lemma find_or_create_index code knowledge :
  In code (map board knowledge) \/ nknowledge knowledge < MAX_KNOWLEDGE ->
  0 <= (find_or_create code knowledge).1.
Proof.
  intros Hroom. unfold find_or_create.
  destruct (index_of code knowledge 0) as [j |] eqn:Hi.
  - apply index_of_Some in Hi. simpl. lia.
  - apply index_of_None in Hi. destruct Hroom as [Hin | Hlt]; [contradiction |].
    apply Z.ltb_lt in Hlt. rewrite Hlt. simpl. unfold nknowledge. lia.
Qed.

Lemma find_or_create_length code knowledge :
  (length knowledge <= length (find_or_create code knowledge).2 <= S (length knowledge))%nat /\
  (nknowledge knowledge <= MAX_KNOWLEDGE ->
   nknowledge (find_or_create code knowledge).2 <= MAX_KNOWLEDGE).
Proof.
  unfold find_or_create, nknowledge, MAX_KNOWLEDGE.
  destruct (index_of code knowledge 0); [simpl; lia |].
  destruct (Z.ltb_spec (Z.of_nat (length knowledge)) 200); simpl; [| lia].
  rewrite length_app. simpl. lia.
Qed.

(** One learning step, seen through the lookups. *)
Lemma learn_weight_of code delta c knowledge :
  In code (map board knowledge) \/ nknowledge knowledge < MAX_KNOWLEDGE ->
  weight_of c (learn code delta knowledge) =
  if c =? code then bump_weight (weight_of c knowledge) delta
  else weight_of c knowledge.
Proof.
  intros Hroom. unfold learn.
  pose proof (find_or_create_index code knowledge Hroom) as Hidx.
  pose proof (find_or_create_weight_of code c knowledge) as Hsame.
  destruct (find_or_create code knowledge) as [idx k] eqn:Hf.
  cbn [fst snd] in *.
  replace (idx >=? 0) with true by (symmetry; apply Z.geb_le; lia).
  destruct (Z.eqb_spec c code) as [-> | Hne].
  - now apply weight_of_learned.
  - destruct (find_or_create_entry _ _ _ _ Hf Hidx) as (e & He & Hb).
    unfold adjust_entry. rewrite He.
    rewrite insert_other_weight by congruence. exact Hsame.
Qed.

Lemma learn_table code delta knowledge :
  (exists tail, map board (learn code delta knowledge) = map board knowledge ++ tail) /\
  (length knowledge <= length (learn code delta knowledge) <= S (length knowledge))%nat /\
  (0 <= code <= 65535 -> Forall kentry_ok knowledge ->
   Forall kentry_ok (learn code delta knowledge)) /\
  (nknowledge knowledge <= MAX_KNOWLEDGE ->
   nknowledge (learn code delta knowledge) <= MAX_KNOWLEDGE) /\
  (List.NoDup (map board knowledge) ->
   List.NoDup (map board (learn code delta knowledge))).
Proof.
  unfold learn.
  pose proof (find_or_create_length code knowledge) as [Hlen Hcap].
  destruct (find_or_create code knowledge) as [idx k] eqn:Hf.
  cbn [fst snd] in *.
  assert (map board (if idx >=? 0 then adjust_entry idx delta k else k) = map board k)
    as Hboards by (destruct (idx >=? 0); [apply adjust_entry_boards | reflexivity]).
  assert (length (if idx >=? 0 then adjust_entry idx delta k else k) = length k)
    as Hlength by (destruct (idx >=? 0); [apply adjust_entry_length | reflexivity]).
  rewrite Hboards. unfold nknowledge in *. rewrite Hlength.
  split; [| split; [exact Hlen | split; [| split; [exact Hcap |]]]].
  - destruct (find_or_create_prefix _ _ _ _ Hf) as [tail ->].
    exists (map board tail). apply map_app.
  - intros Hcode Hok.
    assert (Forall kentry_ok k) as Hk.
    { unfold find_or_create in Hf.
      destruct (index_of code knowledge 0); [now injection Hf as <- <- |].
      destruct (_ <? _); injection Hf as <- <-; [| exact Hok].
      apply Forall_app. split; [exact Hok |].
      constructor; [| constructor]. split; simpl; lia. }
    destruct (idx >=? 0); [now apply adjust_entry_ok | exact Hk].
  - now apply (find_or_create_NoDup _ _ _ _ Hf).
Qed.

(** The replay loop is [learn] on the codes of the computer's boards,
    in order, and [place] on the board. *)
Lemma replay_learn delta (moves : list Z) :
  forall (i : nat) (b : list Z) knowledge,
  replay delta i moves b knowledge =
  (place i moves b,
   fold_left (fun k code => learn code delta k) (learned_codes i moves b) knowledge).
Proof.
  induction moves as [| m rest IH]; intros i b knowledge; [reflexivity |].
  cbn [replay place learned_codes]. rewrite IH.
  destruct (Z.of_nat i mod 2 =? 1); [| reflexivity].
  cbn [fold_left]. unfold learn.
  now destruct (find_or_create _ knowledge).
Qed.

End Updates.

Section UpdateKnowledge.

Implicit Types (code delta : Z) (knowledge : list kentry).

Lemma learned_codes_range (moves : list Z) :
  forall (i : nat) (b : list Z),
  Forall (fun code => 0 <= code <= 65535) (learned_codes i moves b).
Proof.
  induction moves as [| m rest IH]; intros i b; cbn [learned_codes];
    [constructor |].
  destruct (Z.of_nat i mod 2 =? 1); [| apply IH].
  constructor; [apply encode_board_range | apply IH].
Qed.

Lemma fold_learn_table delta (codes : list Z) :
  forall knowledge,
  Forall (fun code => 0 <= code <= 65535) codes ->
  let k' := fold_left (fun k code => learn code delta k) codes knowledge in
  (exists tail, map board k' = map board knowledge ++ tail) /\
  (length knowledge <= length k' <= length knowledge + length codes)%nat /\
  (Forall kentry_ok knowledge -> Forall kentry_ok k') /\
  (nknowledge knowledge <= MAX_KNOWLEDGE -> nknowledge k' <= MAX_KNOWLEDGE) /\
  (List.NoDup (map board knowledge) -> List.NoDup (map board k')).
Proof.
  induction codes as [| code rest IH]; intros knowledge Hcodes; cbn [fold_left].
  - cbv zeta. split; [exists []; now rewrite app_nil_r |].
    simpl. repeat split; auto; lia.
  - apply Forall_cons in Hcodes as [Hcode Hrest].
    pose proof (learn_table code delta knowledge)
      as ([t1 Hp1] & Hl1 & Hok1 & Hcap1 & Hnd1).
    specialize (IH (learn code delta knowledge) Hrest). cbv zeta in IH |- *.
    destruct IH as ([t2 Hp2] & Hl2 & Hok2 & Hcap2 & Hnd2).
    split; [| split; [| split; [| split]]]; auto.
    + exists (t1 ++ t2). now rewrite Hp2, Hp1, app_assoc.
    + simpl length. lia.
Qed.

Lemma fold_learn_weight_of delta c (codes : list Z) :
  forall knowledge,
  nknowledge knowledge + Z.of_nat (length codes) <= MAX_KNOWLEDGE ->
  weight_of c (fold_left (fun k code => learn code delta k) codes knowledge) =
  Nat.iter (count_occ Z.eq_dec codes c) (fun w => bump_weight w delta)
    (weight_of c knowledge).
Proof.
  induction codes as [| code rest IH]; intros knowledge Hroom; [reflexivity |].
  cbn [fold_left]. simpl length in Hroom.
  pose proof (learn_table code delta knowledge) as (_ & Hlen & _).
  rewrite IH by (unfold nknowledge in *; lia).
  rewrite learn_weight_of by (right; lia).
  destruct (Z.eqb_spec c code) as [-> | Hne].
  - rewrite count_occ_cons_eq by reflexivity. now rewrite Nat.iter_succ_r.
  - now rewrite count_occ_cons_neq by congruence.
Qed.

End UpdateKnowledge.

(** X8: [find_or_create] changes no lookup.  Whatever code is found or
    created, [lookup_weight] returns for every board what it returned
    before: a new entry starts at the weight 0 that a missing entry is
    read as. *)
Theorem find_or_create_keeps_lookups (code : Z) (b : list Z)
    (knowledge : list kentry) :
  lookup_weight b (find_or_create code knowledge).2 = lookup_weight b knowledge.
Proof. unfold lookup_weight. apply find_or_create_weight_of. Qed.

(** X9: what [update_knowledge] keeps of the table, for every outcome
    and history: the board codes already in the table stay where they
    are (entries are only appended, their codes never rewritten), at
    most one entry is added per move, well-formed entries stay
    well-formed and the new ones are, a table within its 200 entries
    stays within them, and distinct codes stay distinct. *)
Theorem update_knowledge_keeps_table (outcome : Z) (moves : list Z)
    (knowledge : list kentry) :
  (exists tail,
     map board (update_knowledge outcome moves knowledge).2
     = map board knowledge ++ tail) /\
  (length knowledge <= length (update_knowledge outcome moves knowledge).2
   <= length knowledge + length moves)%nat /\
  (Forall kentry_ok knowledge ->
   Forall kentry_ok (update_knowledge outcome moves knowledge).2) /\
  (nknowledge knowledge <= MAX_KNOWLEDGE ->
   nknowledge (update_knowledge outcome moves knowledge).2 <= MAX_KNOWLEDGE) /\
  (List.NoDup (map board knowledge) ->
   List.NoDup (map board (update_knowledge outcome moves knowledge).2)).
Proof.
  unfold update_knowledge. rewrite replay_learn. cbn [snd].
  pose proof (fold_learn_table (outcome_delta outcome)
                (learned_codes 0 moves (replicate 9 EMPTY)) knowledge
                (learned_codes_range moves 0 (replicate 9 EMPTY))) as H.
  cbv zeta in H. destruct H as (Hp & Hl & Hok & Hcap & Hnd).
  repeat split; auto; try lia.
  assert (forall i b, length (learned_codes i moves b) <= length moves)%nat as Hcount.
  { clear. induction moves as [| m rest IH]; intros i b; cbn [learned_codes];
      [simpl; lia |].
    destruct (Z.of_nat i mod 2 =? 1); simpl length; specialize (IH (S i)).
    - match goal with |- (S (length (learned_codes _ _ ?x)) <= _)%nat =>
        specialize (IH x) end. lia.
    - match goal with |- (length (learned_codes _ _ ?x) <= _)%nat =>
        specialize (IH x) end. lia. }
  specialize (Hcount 0%nat (replicate 9 EMPTY)). lia.
Qed.

Lemma update_knowledge_keeps_table_witness :
  Forall kentry_ok (update_knowledge HUMAN [0; 4; 8; 2; 6; 1; 3] [Kentry 6723 5]).2 /\
  nknowledge (update_knowledge HUMAN [0; 4; 8; 2; 6; 1; 3] [Kentry 6723 5]).2
    <= MAX_KNOWLEDGE /\
  List.NoDup
    (map board (update_knowledge HUMAN [0; 4; 8; 2; 6; 1; 3] [Kentry 6723 5]).2).
Proof.
  destruct (update_knowledge_keeps_table HUMAN [0; 4; 8; 2; 6; 1; 3] [Kentry 6723 5])
    as (_ & _ & Hok & Hcap & Hnd).
  split; [| split].
  - apply Hok. unfold kentry_ok. repeat constructor; simpl; lia.
  - apply Hcap. unfold nknowledge, MAX_KNOWLEDGE. simpl. lia.
  - apply Hnd. simpl. repeat constructor. simpl. tauto.
Defined.

(** X10: what [update_knowledge] does to every lookup, when the table
    has room for one new entry per board of the computer: the weight
    found for a code afterwards is the weight found before, changed by
    the weight step of the outcome once for each time the code is among
    the boards reached after the computer's moves; the weight of every
    other code is as before. *)
Theorem update_knowledge_weights (outcome : Z) (moves : list Z)
    (knowledge : list kentry) (c : Z) :
  nknowledge knowledge
    + Z.of_nat (length (learned_codes 0 moves (replicate 9 EMPTY)))
    <= MAX_KNOWLEDGE ->
  weight_of c (update_knowledge outcome moves knowledge).2 =
  Nat.iter
    (count_occ Z.eq_dec (learned_codes 0 moves (replicate 9 EMPTY)) c)
    (fun w => bump_weight w (outcome_delta outcome))
    (weight_of c knowledge).
Proof.
  intros Hroom. unfold update_knowledge. rewrite replay_learn. cbn [snd].
  now apply fold_learn_weight_of.
Qed.

Lemma update_knowledge_weights_witness :
  weight_of 8182 (update_knowledge 0 [0; 4; 8; 2; 6; 1; 3] [Kentry 6723 5]).2 = 1 /\
  weight_of 6723 (update_knowledge 0 [0; 4; 8; 2; 6; 1; 3] [Kentry 6723 5]).2 = 6 /\
  weight_of 7 (update_knowledge 0 [0; 4; 8; 2; 6; 1; 3] [Kentry 6723 5]).2 = 0.
Proof.
  assert (nknowledge [Kentry 6723 5]
          + Z.of_nat (length (learned_codes 0 [0; 4; 8; 2; 6; 1; 3] (replicate 9 EMPTY)))
          <= MAX_KNOWLEDGE) as Hroom by (vm_compute; discriminate).
  split; [| split].
  - rewrite (update_knowledge_weights 0 _ _ 8182 Hroom). reflexivity.
  - rewrite (update_knowledge_weights 0 _ _ 6723 Hroom). reflexivity.
  - rewrite (update_knowledge_weights 0 _ _ 7 Hroom). reflexivity.
Defined.

(** * Whole records of the file *)

Section Records.

Lemma records_length (n : nat) :
  forall bytes : list Z,
  (length bytes <= n)%nat ->
  Z.of_nat (length (records bytes)) = Z.of_nat (length bytes) / 3.
Proof.
  induction n as [| n IH]; intros bytes Hlen.
  - destruct bytes; [reflexivity | simpl in Hlen; lia].
  - destruct bytes as [| b0 [| b1 [| b2 rest]]]; try reflexivity.
    cbn [records]. simpl length. simpl length in Hlen.
    rewrite Nat2Z.inj_succ, IH by lia.
    rewrite !Nat2Z.inj_succ. Z.div_mod_to_equations. lia.
Qed.

Lemma records_partial (n : nat) :
  forall bytes tail : list Z,
  (length bytes <= n)%nat ->
  Z.of_nat (length bytes) mod 3 = 0 ->
  (length tail < 3)%nat ->
  records (bytes ++ tail) = records bytes.
Proof.
  induction n as [| n IH]; intros bytes tail Hlen Hmod Htail.
  - destruct bytes; [| simpl in Hlen; lia]. simpl.
    destruct tail as [| t0 [| t1 [| t2 tail]]]; try reflexivity.
    simpl in Htail. lia.
  - destruct bytes as [| b0 [| b1 [| b2 rest]]].
    + simpl. destruct tail as [| t0 [| t1 [| t2 tail]]]; try reflexivity.
      simpl in Htail. lia.
    + simpl in Hmod. discriminate.
    + simpl in Hmod. discriminate.
    + cbn [app records]. f_equal. apply IH.
      * simpl in Hlen. lia.
      * simpl length in Hmod. rewrite !Nat2Z.inj_succ in Hmod.
        Z.div_mod_to_equations. lia.
      * exact Htail.
Qed.

End Records.

(** X11: the number [load_knowledge] returns.  On a stream of n bytes
    the table holds n / 3 entries (rounded down), or 200 when the
    stream holds more records than that. *)
Theorem load_knowledge_count (bytes : list Z) :
  Forall byte_ok bytes ->
  nknowledge (load_knowledge bytes)
  = Z.min (Z.of_nat (length bytes) / 3) MAX_KNOWLEDGE.
Proof.
  intros Hok. rewrite load_knowledge_records by assumption.
  unfold nknowledge, MAX_KNOWLEDGE. rewrite length_take.
  pose proof (records_length (length bytes) bytes (Nat.le_refl _)) as Hlen.
  lia.
Qed.

Lemma load_knowledge_count_witness :
  nknowledge (load_knowledge [255; 255; 0; 1; 0; 255; 3]) = 2.
Proof.
  rewrite (load_knowledge_count [255; 255; 0; 1; 0; 255; 3]); [reflexivity |].
  unfold byte_ok. repeat constructor; lia.
Defined.

(** X12: a file cut in the middle of a record loads as its complete
    records.  One or two bytes after the last whole record change
    nothing in the table that is loaded. *)
Theorem load_knowledge_ignores_partial_record (bytes tail : list Z) :
  Forall byte_ok bytes -> Forall byte_ok tail ->
  Z.of_nat (length bytes) mod 3 = 0 ->
  (length tail < 3)%nat ->
  load_knowledge (bytes ++ tail) = load_knowledge bytes.
Proof.
  intros Hb Ht Hmod Htail.
  rewrite !load_knowledge_records by (try apply Forall_app; auto).
  now rewrite (records_partial (length bytes)).
Qed.

Lemma load_knowledge_ignores_partial_record_witness :
  load_knowledge ([67; 26; 254] ++ [44; 1]) = load_knowledge [67; 26; 254].
Proof.
  apply load_knowledge_ignores_partial_record.
  - unfold byte_ok. repeat constructor; lia.
  - unfold byte_ok. repeat constructor; lia.
  - reflexivity.
  - simpl. lia.
Defined.

(** X13: [check_winner] returns a mark only for a line that the mark
    holds: a result other than 0 is the common value of the three cells
    of one of the eight lines; the result 0 means that no line has
    three equal cells other than EMPTY. *)
Theorem check_winner_line (b : list Z) :
  (check_winner b <> 0 ->
   exists p0 p1 p2 : nat,
     In (p0, p1, p2) lines /\
     b !!! p0 = check_winner b /\ b !!! p1 = check_winner b /\
     b !!! p2 = check_winner b) /\
  (check_winner b = 0 ->
   forall p0 p1 p2 : nat, In (p0, p1, p2) lines ->
     ~ (b !!! p0 <> EMPTY /\ b !!! p0 = b !!! p1 /\ b !!! p1 = b !!! p2)).
Proof.
  unfold check_winner.
  destruct (find _ lines) as [[[q0 q1] q2] |] eqn:Hf.
  - apply find_some in Hf as [Hin Htest].
    apply andb_prop in Htest as [Htest H12]. apply andb_prop in Htest as [H0 H01].
    apply negb_true_iff, Z.eqb_neq in H0.
    apply Z.eqb_eq in H01, H12.
    split.
    + intros _. exists q0, q1, q2. repeat split; auto; congruence.
    + intros Hz. unfold EMPTY in H0. contradiction.
  - split; [intros Hne; now contradiction Hne |].
    intros _ p0 p1 p2 Hin (H0 & H01 & H12).
    apply (find_none _ _ Hf) in Hin. cbn beta iota in Hin.
    apply Z.eqb_neq in H0. apply Z.eqb_eq in H01, H12.
    rewrite H0, H01, H12 in Hin. discriminate.
Qed.

Lemma check_winner_line_witness :
  exists p0 p1 p2 : nat,
    In (p0, p1, p2) lines /\
    [1; 2; 2; 1; 2; 0; 1; 0; 1] !!! p0 = check_winner [1; 2; 2; 1; 2; 0; 1; 0; 1] /\
    [1; 2; 2; 1; 2; 0; 1; 0; 1] !!! p1 = check_winner [1; 2; 2; 1; 2; 0; 1; 0; 1] /\
    [1; 2; 2; 1; 2; 0; 1; 0; 1] !!! p2 = check_winner [1; 2; 2; 1; 2; 0; 1; 0; 1].
Proof.
  apply (proj1 (check_winner_line [1; 2; 2; 1; 2; 0; 1; 0; 1])).
  vm_compute. discriminate.
Defined.

(** * A game of the 1973 program *)

Section Game.

Variable knowledge : list kentry.
Hypothesis knowledge_ok : Forall kentry_ok knowledge.

Lemma board_full_0 (b : list Z) :
  board_full b = 0 -> exists i : nat, (i < 9)%nat /\ b !!! i = EMPTY.
Proof.
  unfold board_full. destruct (existsb _ (seq 0 9)) eqn:He; [| discriminate].
  intros _. apply existsb_exists in He as (i & Hin & Hi).
  apply in_seq in Hin. apply Z.eqb_eq in Hi. exists i. split; [lia | exact Hi].
Qed.

Lemma board_full_values (b : list Z) : board_full b = 0 \/ board_full b = 1.
Proof. unfold board_full. destruct (existsb _ _); auto. Qed.

(** On a board with an EMPTY cell the move of [compute_move] is an
    EMPTY cell. *)
Lemma compute_move_cell (b : list Z) :
  board_full b = 0 ->
  0 <= (compute_move b knowledge).1 <= 8 /\
  b !!! Z.to_nat (compute_move b knowledge).1 = EMPTY.
Proof.
  intros Hfull. apply board_full_0 in Hfull as (i0 & Hi0 & Hcell).
  destruct (compute_move_choice b knowledge i0 knowledge_ok Hi0 Hcell)
    as (best & Hbest & Hbc & _ & _ & ->).
  destruct (_ =? 0); [destruct (find _ priority) as [p |] eqn:Hf |];
    rewrite ?Nat2Z.id.
  - apply priority_find_Some in Hf as [Hp Hpc].
    split; [lia | assumption].
  - split; [lia | assumption].
  - split; [lia | assumption].
Qed.

Lemma place_app (h : list Z) (m : Z) :
  forall (i : nat) (b0 : list Z),
  place i (h ++ [m]) b0 =
  if Z.of_nat (i + length h) mod 2 =? 0
  then <[Z.to_nat m := HUMAN]> (place i h b0)
  else <[Z.to_nat m := COMPUTER]> (place i h b0).
Proof.
  induction h as [| x h IH]; intros i b0.
  - cbn [app place length]. now rewrite Nat.add_0_r.
  - cbn [app place length]. rewrite IH.
    now replace (S i + length h)%nat with (i + S (length h))%nat by lia.
Qed.

(** A legal move keeps the board and the history in step. *)
Lemma history_ok_move (b h : list Z) (m x : Z) :
  history_ok b h ->
  0 <= m <= 8 -> b !!! Z.to_nat m = EMPTY ->
  x <> EMPTY ->
  (x = if Z.of_nat (length h) mod 2 =? 0 then HUMAN else COMPUTER) ->
  history_ok (<[Z.to_nat m := x]> b) (h ++ [m]).
Proof.
  intros (Hlen & Hplace & Hnd & Hrange & Hcells) Hm Hcell Hx Hmark.
  assert (~ In m h) as Hfresh.
  { intros Hin. apply (Hcells (Z.to_nat m)) in Hcell; [exact Hcell | lia |].
    now rewrite Z2Nat.id by lia. }
  split; [now rewrite length_insert |]. split; [| split; [| split]].
  - rewrite place_app, <- Hplace. cbn [Nat.add]. rewrite Hmark.
    now destruct (Z.of_nat (length h) mod 2 =? 0).
  - apply List.NoDup_app; [exact Hnd | repeat constructor; simpl; tauto |].
    intros a Ha [<- | []]. contradiction.
  - apply Forall_app. split; [exact Hrange | now repeat constructor].
  - intros i Hi. rewrite in_app_iff. simpl.
    destruct (Nat.eq_dec (Z.to_nat m) i) as [<- | Hne].
    + rewrite list_lookup_total_insert_eq by lia.
      split; [intros _; right; left; lia | intros _; exact Hx].
    + rewrite list_lookup_total_insert_ne by exact Hne.
      rewrite (Hcells i Hi). split; [tauto |].
      intros [Hin | [Heq | []]]; [exact Hin | lia].
Qed.

Lemma history_ok_start : history_ok (replicate 9 EMPTY) [].
Proof.
  split; [reflexivity |]. split; [reflexivity |].
  split; [constructor |]. split; [constructor |].
  intros i Hi. simpl.
  do 9 (destruct i as [| i]; [split; [intros H; now contradiction H | tauto] |]).
  lia.
Qed.

Lemma history_ok_length (b h : list Z) :
  history_ok b h -> (length h <= 9)%nat.
Proof.
  intros (_ & _ & Hnd & Hrange & _).
  change 9%nat with (length [0; 1; 2; 3; 4; 5; 6; 7; 8]).
  apply List.NoDup_incl_length; [exact Hnd |].
  intros m Hin. rewrite Forall_forall in Hrange.
  apply list_elem_of_In, Hrange in Hin.
  assert (m = 0 \/ m = 1 \/ m = 2 \/ m = 3 \/ m = 4 \/ m = 5 \/ m = 6 \/ m = 7 \/ m = 8)
    as H by lia.
  simpl. intuition.
Qed.

Lemma history_ok_full (b h : list Z) :
  history_ok b h -> board_full b = 1 -> length h = 9%nat.
Proof.
  intros Hok Hfull. pose proof (history_ok_length b h Hok) as Hle.
  destruct Hok as (_ & _ & _ & _ & Hcells).
  rewrite board_full_1 in Hfull.
  assert (length ([0; 1; 2; 3; 4; 5; 6; 7; 8]%Z : list Z) <= length h)%nat as Hge.
  { apply List.NoDup_incl_length.
    - repeat (constructor; [simpl; lia |]). constructor.
    - intros m Hin. simpl in Hin.
      assert (exists i : nat, (i < 9)%nat /\ m = Z.of_nat i) as (i & Hi & ->).
      { repeat (destruct Hin as [<- | Hin];
                [match goal with
                 | |- exists i : nat, _ /\ ?z = _ => exists (Z.to_nat z)
                 end; split; [simpl; lia | reflexivity] |]).
        contradiction. }
      apply Hcells; [exact Hi |]. now apply Hfull. }
  simpl in Hge. lia.
Qed.

(** The loop of a game from a state where the board and the history
    are in step and the human is to move. *)
Lemma game_loop_invariant (inputs : list Z) :
  forall (b h : list Z) (e : ending) (b' h' rest : list Z),
  history_ok b h ->
  Z.of_nat (length h) mod 2 = 0 ->
  game_loop inputs b h knowledge = Some (e, b', h', rest) ->
  history_ok b' h' /\
  match e with
  | YouWin => check_winner b' = HUMAN /\ Z.of_nat (length h') mod 2 = 1
  | DrawGame => board_full b' = 1 /\ check_winner b' <> HUMAN
  | Concede => False
  | IWin => check_winner b' = COMPUTER /\ Z.of_nat (length h') mod 2 = 0
  end.
Proof.
  induction inputs as [| c inputs IH]; intros b h e b' h' rest Hok Hpar;
    cbn [game_loop]; [discriminate |].
  destruct ((c - 49 <? 0) || (c - 49 >? 8)
            || negb (b !!! Z.to_nat (c - 49) =? EMPTY)) eqn:Hillegal;
    [now apply IH |].
  apply orb_false_elim in Hillegal as [Hillegal Hcell].
  apply orb_false_elim in Hillegal as [Hlo Hhi].
  apply Z.ltb_ge in Hlo. rewrite Z.gtb_ltb in Hhi. apply Z.ltb_ge in Hhi.
  apply negb_false_iff, Z.eqb_eq in Hcell.
  assert (history_ok (<[Z.to_nat (c - 49) := HUMAN]> b) (h ++ [c - 49])) as Hok1.
  { apply (history_ok_move b h (c - 49) HUMAN Hok);
      [lia | exact Hcell | discriminate | now rewrite Hpar]. }
  assert (Z.of_nat (length (h ++ [c - 49])) mod 2 = 1) as Hpar1.
  { rewrite length_app. simpl length. rewrite Nat2Z.inj_add.
    change (Z.of_nat 1) with 1. Z.div_mod_to_equations. lia. }
  destruct (Z.eqb_spec (check_winner (<[Z.to_nat (c - 49) := HUMAN]> b)) HUMAN)
    as [Hwin | Hnowin].
  { intros [= <- <- <- <-]. split; [exact Hok1 | split; assumption]. }
  destruct (board_full_values (<[Z.to_nat (c - 49) := HUMAN]> b)) as [Hfull | Hfull];
    rewrite Hfull; cbn [Z.eqb negb];
    [| intros [= <- <- <- <-]; split; [exact Hok1 | split; assumption]].
  pose proof (compute_move_cell _ Hfull) as [Hmv Hmvcell].
  pose proof (compute_move_unfold (<[Z.to_nat (c - 49) := HUMAN]> b) knowledge) as Hb2.
  destruct (compute_move (<[Z.to_nat (c - 49) := HUMAN]> b) knowledge)
    as [mv b2] eqn:Hcm.
  cbn [fst snd] in Hmv, Hmvcell.
  assert (b2 = <[Z.to_nat (c - 49) := HUMAN]> b) as -> by (now injection Hb2).
  replace (mv <? 0) with false by (symmetry; apply Z.ltb_ge; lia).
  assert (history_ok (<[Z.to_nat mv := COMPUTER]> (<[Z.to_nat (c - 49) := HUMAN]> b))
            ((h ++ [c - 49]) ++ [mv])) as Hok2.
  { apply (history_ok_move _ _ mv COMPUTER Hok1);
      [lia | exact Hmvcell | discriminate | now rewrite Hpar1]. }
  assert (Z.of_nat (length ((h ++ [c - 49]) ++ [mv])) mod 2 = 0) as Hpar2.
  { rewrite length_app. simpl length. rewrite Nat2Z.inj_add.
    change (Z.of_nat 1) with 1. Z.div_mod_to_equations. lia. }
  destruct (Z.eqb_spec
              (check_winner (<[Z.to_nat mv := COMPUTER]> (<[Z.to_nat (c - 49) := HUMAN]> b)))
              COMPUTER) as [Hcw | Hcw].
  { intros [= <- <- <- <-]. split; [exact Hok2 | split; assumption]. }
  now apply IH.
Qed.

End Game.

(** X14: the computer never concedes.  With a table of well-formed
    entries, a game of [main] from the cleared board, whatever the
    human types, does not end on the "I concede" branch. *)
Theorem game_never_concedes (knowledge : list kentry) (inputs : list Z)
    (e : ending) (b h rest : list Z) :
  Forall kentry_ok knowledge ->
  game_loop inputs (replicate 9 EMPTY) [] knowledge = Some (e, b, h, rest) ->
  e <> Concede.
Proof.
  intros Hk Hgame.
  destruct (game_loop_invariant knowledge Hk inputs _ _ _ _ _ _
              history_ok_start eq_refl Hgame) as [_ He].
  intros ->. exact He.
Qed.

Lemma game_never_concedes_witness :
  game_loop [49; 57; 55; 50; 52] (replicate 9 EMPTY) [] []
    = Some (YouWin, [1; 2; 2; 1; 2; 0; 1; 0; 1], [0; 4; 8; 2; 6; 1; 3], [])
  /\ YouWin <> Concede.
Proof.
  split; [reflexivity |].
  apply (game_never_concedes [] [49; 57; 55; 50; 52] YouWin
           [1; 2; 2; 1; 2; 0; 1; 0; 1] [0; 4; 8; 2; 6; 1; 3] []);
    [constructor | reflexivity].
Defined.

(** X15: the history of a game fits [move_history].  At the end of a
    game of [main] the history holds at most nine moves, all of them
    cells from 0 to 8 and no cell twice. *)
Theorem game_history_fits (knowledge : list kentry) (inputs : list Z)
    (e : ending) (b h rest : list Z) :
  Forall kentry_ok knowledge ->
  game_loop inputs (replicate 9 EMPTY) [] knowledge = Some (e, b, h, rest) ->
  (length h <= 9)%nat /\ List.NoDup h /\ Forall (fun m => 0 <= m <= 8) h.
Proof.
  intros Hk Hgame.
  destruct (game_loop_invariant knowledge Hk inputs _ _ _ _ _ _
              history_ok_start eq_refl Hgame) as [Hok _].
  split; [now apply (history_ok_length b) |].
  destruct Hok as (_ & _ & Hnd & Hrange & _). now split.
Qed.

Lemma game_history_fits_witness :
  (length [0; 4; 8; 2; 6; 1; 3] <= 9)%nat /\
  List.NoDup [0; 4; 8; 2; 6; 1; 3] /\
  Forall (fun m => 0 <= m <= 8) [0; 4; 8; 2; 6; 1; 3].
Proof.
  apply (game_history_fits [] [49; 57; 55; 50; 52] YouWin
           [1; 2; 2; 1; 2; 0; 1; 0; 1] [0; 4; 8; 2; 6; 1; 3] []);
    [constructor | reflexivity].
Defined.

(** X16: [update_knowledge] replays the game that was played.  At the
    end of a game of [main], the board that [update_knowledge] rebuilds
    from the history, for any outcome and table, is the board the game
    ended on: the marks it assigns by the parity of the move number are
    the marks that were played. *)
Theorem game_replay_matches (knowledge : list kentry) (inputs : list Z)
    (e : ending) (b h rest : list Z) (outcome : Z) (k : list kentry) :
  Forall kentry_ok knowledge ->
  game_loop inputs (replicate 9 EMPTY) [] knowledge = Some (e, b, h, rest) ->
  (update_knowledge outcome h k).1 = b.
Proof.
  intros Hk Hgame.
  destruct (game_loop_invariant knowledge Hk inputs _ _ _ _ _ _
              history_ok_start eq_refl Hgame) as [(_ & Hplace & _) _].
  unfold update_knowledge. rewrite replay_learn. cbn [fst]. now symmetry.
Qed.

Lemma game_replay_matches_witness :
  (update_knowledge HUMAN [0; 4; 8; 2; 6; 1; 3] [Kentry 7 1]).1
  = [1; 2; 2; 1; 2; 0; 1; 0; 1].
Proof.
  apply (game_replay_matches [] [49; 57; 55; 50; 52] YouWin
           [1; 2; 2; 1; 2; 0; 1; 0; 1] [0; 4; 8; 2; 6; 1; 3] []);
    [constructor | reflexivity].
Defined.

(** X17: how a game of [main] ends.  "You win" comes after an odd
    number of moves on a board where [check_winner] finds the human;
    "I win" after an even number on a board where it finds the
    computer; "Draw" only after nine moves, on a full board where it
    does not find the human. *)
Theorem game_endings (knowledge : list kentry) (inputs : list Z)
    (e : ending) (b h rest : list Z) :
  Forall kentry_ok knowledge ->
  game_loop inputs (replicate 9 EMPTY) [] knowledge = Some (e, b, h, rest) ->
  match e with
  | YouWin => check_winner b = HUMAN /\ Z.of_nat (length h) mod 2 = 1
  | IWin => check_winner b = COMPUTER /\ Z.of_nat (length h) mod 2 = 0
  | DrawGame =>
      length h = 9%nat /\ board_full b = 1 /\ check_winner b <> HUMAN
  | Concede => False
  end.
Proof.
  intros Hk Hgame.
  destruct (game_loop_invariant knowledge Hk inputs _ _ _ _ _ _
              history_ok_start eq_refl Hgame) as [Hok He].
  destruct e; try exact He.
  destruct He as [Hfull Hw]. split; [| split; assumption].
  now apply (history_ok_full b).
Qed.

Lemma game_endings_witness :
  game_loop [51; 49; 56; 54; 52] (replicate 9 EMPTY) [] []
    = Some (DrawGame, [1; 2; 1; 1; 2; 1; 2; 1; 2], [2; 4; 0; 6; 7; 8; 5; 1; 3], [])
  /\ length [2; 4; 0; 6; 7; 8; 5; 1; 3] = 9%nat.
Proof.
  split; [reflexivity |].
  apply (game_endings [] [51; 49; 56; 54; 52] DrawGame
           [1; 2; 1; 1; 2; 1; 2; 1; 2] [2; 4; 0; 6; 7; 8; 5; 1; 3] []);
    [constructor | reflexivity].
Defined.

(** X18: a round of [main] leaves a table the next run can load.
    Starting from a table of well-formed entries within the 200, the
    table after [update_knowledge] is again well-formed and within the
    200, it keeps the codes it had in place, and loading the bytes that
    [save_knowledge] wrote gives exactly that table. *)
Theorem game_round_saves_table (knowledge : list kentry) (inputs : list Z)
    (e : ending) (k : list kentry) (bytes rest : list Z) :
  Forall kentry_ok knowledge ->
  nknowledge knowledge <= MAX_KNOWLEDGE ->
  game_round inputs knowledge = Some (e, k, bytes, rest) ->
  Forall kentry_ok k /\
  nknowledge k <= MAX_KNOWLEDGE /\
  (exists tail, map board k = map board knowledge ++ tail) /\
  load_knowledge bytes = k.
Proof.
  intros Hk Hcap. unfold game_round.
  destruct (game_loop inputs (replicate 9 EMPTY) [] knowledge)
    as [[[[e0 b] h] r] |]; [| discriminate].
  unfold update_knowledge. rewrite replay_learn.
  intros [= <- <- <- <-].
  pose proof (fold_learn_table (outcome_delta (ending_outcome e0))
                (learned_codes 0 h (replicate 9 EMPTY)) knowledge
                (learned_codes_range h 0 (replicate 9 EMPTY))) as H.
  cbv zeta in H. destruct H as (Hp & _ & Hok & Hc & _).
  specialize (Hok Hk). specialize (Hc Hcap).
  split; [exact Hok |]. split; [exact Hc |]. split; [exact Hp |].
  rewrite load_knowledge_records by apply save_knowledge_byte_ok.
  rewrite records_save_knowledge by assumption.
  apply take_ge. apply Nat2Z.inj_le. exact Hc.
Qed.

Lemma game_round_saves_table_witness :
  load_knowledge [67; 26; 254; 246; 31; 254; 21; 49; 254]
  = [Kentry 6723 (-2); Kentry 8182 (-2); Kentry 12565 (-2)].
Proof.
  apply (game_round_saves_table [] [49; 57; 55; 50; 52] YouWin
           [Kentry 6723 (-2); Kentry 8182 (-2); Kentry 12565 (-2)]
           [67; 26; 254; 246; 31; 254; 21; 49; 254] []);
    [constructor | vm_compute; discriminate | reflexivity].
Defined.

(** X19: what [compute_move] selects.  On a board with an EMPTY cell
    and a table of well-formed entries, let [best] be the first EMPTY
    cell whose weight is the greatest among the EMPTY cells.  When that
    weight is not 0 the move is [best]; when it is 0 the move is the
    first EMPTY cell in the order 4, 0, 2, 6, 8, 1, 3, 5, 7, whatever
    its weight. *)
Theorem compute_move_selects (b : list Z) (knowledge : list kentry) (i0 : nat) :
  Forall kentry_ok knowledge ->
  (i0 < 9)%nat -> b !!! i0 = EMPTY ->
  exists best : nat,
    (best < 9)%nat /\ b !!! best = EMPTY /\
    (forall i, (i < 9)%nat -> b !!! i = EMPTY ->
       move_weight b knowledge i <= move_weight b knowledge best) /\
    (forall i, (i < best)%nat -> b !!! i = EMPTY ->
       move_weight b knowledge i < move_weight b knowledge best) /\
    (move_weight b knowledge best <> 0 ->
       (compute_move b knowledge).1 = Z.of_nat best) /\
    (move_weight b knowledge best = 0 ->
       exists p : nat,
         find (fun p : nat => b !!! p =? EMPTY) priority = Some p /\
         (compute_move b knowledge).1 = Z.of_nat p).
Proof.
  intros Hok Hi0 Hcell.
  destruct (compute_move_choice b knowledge i0 Hok Hi0 Hcell)
    as (best & Hbest & Hbc & Hmax & Hfirst & Hmove).
  exists best. repeat split; auto.
  - intros Hne. rewrite Hmove.
    now rewrite (proj2 (Z.eqb_neq _ _) Hne).
  - intros Hz. rewrite Hmove, Hz. cbn [Z.eqb].
    destruct (find _ priority) as [p |] eqn:Hf; [now exists p |].
    exfalso. apply (priority_find_None b Hf i0 Hi0 Hcell).
Qed.

Lemma compute_move_selects_witness :
  exists best : nat,
    (best < 9)%nat /\
    (move_weight [1; 0; 0; 0; 0; 0; 0; 0; 0] [Kentry 6579 5] best <> 0 ->
     (compute_move [1; 0; 0; 0; 0; 0; 0; 0; 0] [Kentry 6579 5]).1 = Z.of_nat best).
Proof.
  assert (Forall kentry_ok [Kentry 6579 5]) as Hok.
  { unfold kentry_ok. repeat constructor; simpl; lia. }
  destruct (compute_move_selects [1; 0; 0; 0; 0; 0; 0; 0; 0] [Kentry 6579 5] 1
              Hok ltac:(lia) eq_refl)
    as (best & Hb & _ & _ & _ & Hne & _).
  exists best. split; assumption.
Defined.

(** X20: without knowledge the computer plays by position.  With an
    empty table [compute_move] returns the first EMPTY cell in the
    order centre, corners, edges (4, 0, 2, 6, 8, 1, 3, 5, 7), and -1
    when no cell is EMPTY. *)
Theorem compute_move_without_knowledge (b : list Z) :
  (compute_move b []).1 =
  match find (fun p : nat => b !!! p =? EMPTY) priority with
  | Some p => Z.of_nat p
  | None => -1
  end.
Proof.
  rewrite compute_move_unfold. cbn [fst].
  pose proof (scan_invariant b [] 9 (List.Forall_nil _)) as Hinv. cbv zeta in Hinv.
  destruct (fold_left (pick b []) (seq 0 9) (-1, -1000)) as [m w].
  cbn [fst snd] in *.
  destruct Hinv as [[[= -> ->] _] | (Hm & Hcell & Hw & _)].
  - reflexivity.
  - assert (w = 0) as -> by (rewrite Hw; reflexivity).
    rewrite orb_true_r.
    destruct (find _ priority) as [p |] eqn:Hf; [reflexivity |].
    exfalso. apply (priority_find_None b Hf (Z.to_nat m)); [lia | exact Hcell].
Qed.

(** X21: the order of rules 3 to 5.  When neither side can complete a
    line, [best_move] returns the centre if it is blank; otherwise a
    blank corner if there is one; an edge is returned only when the
    centre and the four corners are taken. *)
Theorem best_move_centre_corner_edge (me opponent : ascii) (b : list ascii) :
  Ttt2024.find_winning_move me b = 0 ->
  Ttt2024.find_winning_move opponent b = 0 ->
  (Ttt2024.cell b 5 = " "%char -> Ttt2024.best_move me opponent b = 5) /\
  (Ttt2024.cell b 5 <> " "%char ->
   (exists c, In c Ttt2024.corners /\ Ttt2024.cell b c = " "%char) ->
   exists c, Ttt2024.best_move me opponent b = Z.of_nat c /\
             In c Ttt2024.corners /\ Ttt2024.cell b c = " "%char) /\
  (forall e, Ttt2024.best_move me opponent b = Z.of_nat e ->
     In e Ttt2024.edges ->
     Ttt2024.cell b 5 <> " "%char /\
     forall c, In c Ttt2024.corners -> Ttt2024.cell b c <> " "%char).
Proof.
  intros Hme Hop. unfold Ttt2024.best_move. rewrite Hme, Hop. cbn [Z.gtb Z.compare].
  destruct (Ascii.eqb_spec (Ttt2024.cell b 5) " "%char) as [H5 | H5].
  { split; [reflexivity |]. split; [contradiction |].
    intros e He Hin. exfalso. unfold Ttt2024.edges in Hin. simpl in Hin.
    repeat (destruct Hin as [<- | Hin]; [discriminate He |]). contradiction. }
  split; [contradiction |].
  destruct (Ttt2024.opposite_corner _ _ opponent b) as [o |] eqn:Ho.
  { assert (In o Ttt2024.corners /\ Ttt2024.cell b o = " "%char) as [Hin Hb].
    { revert Ho. unfold Ttt2024.corners, Ttt2024.opposite.
      cbn [Ttt2024.opposite_corner].
      repeat match goal with
             | |- context [Ascii.eqb (Ttt2024.cell b ?c) opponent
                           && Ascii.eqb (Ttt2024.cell b ?q) " "%char] =>
                 destruct (Ascii.eqb (Ttt2024.cell b c) opponent);
                 [destruct (Ascii.eqb_spec (Ttt2024.cell b q) " "%char) |];
                 cbn [andb]
             end;
        intros [= <-]; (split; [simpl; tauto | assumption]). }
    split.
    - intros _ _. exists o. auto.
    - intros e He Hine. apply Nat2Z.inj in He. subst e. exfalso.
      unfold Ttt2024.corners in Hin. unfold Ttt2024.edges in Hine.
      simpl in Hin, Hine.
      repeat (destruct Hin as [<- | Hin]; [intuition discriminate |]).
      contradiction. }
  destruct (find _ Ttt2024.corners) as [c |] eqn:Hc.
  { apply find_blank_Some in Hc as [Hin Hb]. split.
    - intros _ _. exists c. auto.
    - intros e He Hine. apply Nat2Z.inj in He. subst e. exfalso.
      unfold Ttt2024.corners in Hin. unfold Ttt2024.edges in Hine.
      simpl in Hin, Hine.
      repeat (destruct Hin as [<- | Hin]; [intuition discriminate |]).
      contradiction. }
  split.
  - intros _ (c & Hin & Hb). exfalso. now apply (find_blank_None b _ c Hc).
  - intros e _ _. split; [exact H5 |].
    intros c Hin. now apply (find_blank_None b _ c Hc).
Qed.

Lemma best_move_centre_corner_edge_witness :
  Ttt2024.best_move "O" "X"
    [" "; "X"; " "; " "; " "; " "; " "; " "; " "; " "]%char = 5.
Proof.
  apply (proj1 (best_move_centre_corner_edge "O" "X"
                  [" "; "X"; " "; " "; " "; " "; " "; " "; " "; " "]%char
                  eq_refl eq_refl)).
  reflexivity.
Defined.
